(** * ToDoList: a shallow embedding of [main.cpp]

    The console task manager keeps a [std::vector<Task>] and an [int]
    counter inside a [TaskManager], and persists the tasks as one CSV line
    per task.  This development embeds

    - the string helper [trim] and the library calls it relies on
      ([find_first_not_of], [find_last_not_of], [substr], [std::stoi],
      [operator<<] on [int], [std::getline]);
    - [Task] with [escapeCommas], [unescapeCommas], [toCsv], [fromCsv];
    - [TaskManager] with [load], [save] and the CRUD operations;
    - the part of [main] that reads a title and calls [addTask];

    and proves the properties of the specification against it.

    C++ strings are lists of characters, [int] is [Z] with the 32-bit
    two's-complement wrap written out where the code does arithmetic on it
    ([nextId++], [maxSeen + 1]; the C++ standard leaves signed overflow
    undefined, the wrap is what the usual targets compute), and the file
    system is a map from paths to file contents. *)

From Stdlib Require Import ZArith List Ascii Bool Lia Sorted.
From Stdlib Require String.
Import ListNotations.
Import String.StringSyntax.

Local Open Scope char_scope.
Local Open Scope Z_scope.

(** ** Strings *)

Definition str := list ascii.

(** String literals of the source, e.g. [lit "tasks.csv"]. *)
Definition lit (s : String.string) : str := String.list_ascii_of_string s.
Arguments lit s%_string_scope.

Definition comma : ascii := ",".
Definition backslash : ascii := "\".
Definition space : ascii := " ".
Definition tab : ascii := "009".
Definition LF : ascii := "010".
Definition VT : ascii := "011".
Definition FF : ascii := "012".
Definition CR : ascii := "013".

Definition mem_char (c : ascii) (set : str) : bool :=
  existsb (Ascii.eqb c) set.

(** [s.find_first_not_of(set)]; [None] is [std::string::npos]. *)
Fixpoint find_first_not_of (s set : str) : option nat :=
  match s with
  | [] => None
  | c :: r =>
      if mem_char c set then option_map S (find_first_not_of r set)
      else Some 0%nat
  end.

(** [s.find_last_not_of(set)]. *)
Fixpoint find_last_not_of (s set : str) : option nat :=
  match s with
  | [] => None
  | c :: r =>
      match find_last_not_of r set with
      | Some i => Some (S i)
      | None => if mem_char c set then None else Some 0%nat
      end
  end.

(** [s.substr(pos, n)] for [pos <= s.size()]: at most [n] characters. *)
Definition substr (s : str) (pos n : nat) : str := firstn n (skipn pos s).

(** The characters [trim] removes: [" \t\r\n"]. *)
Definition trim_set : str := [space; tab; CR; LF].

(** [static std::string trim(const std::string& s)].  When [a] is not
    [npos], [b] is not either; the last branch (the count [npos - a + 1]
    wraps to a number beyond the end of [s]) is kept for completeness. *)
Definition trim (s : str) : str :=
  let a := find_first_not_of s trim_set in
  let b := find_last_not_of s trim_set in
  match a with
  | None => []
  | Some a =>
      match b with
      | Some b => substr s a (b - a + 1)
      | None => substr s a (length s)
      end
  end.

(** ** [int] *)

Definition INT_MIN : Z := - 2 ^ 31.
Definition INT_MAX : Z := 2 ^ 31 - 1.

Definition in_int (z : Z) : bool := (INT_MIN <=? z) && (z <=? INT_MAX).

(** The value the 32-bit two's-complement [int] holds after an operation
    whose mathematical result is [z]. *)
Definition wrap_int (z : Z) : Z := (z + 2 ^ 31) mod 2 ^ 32 - 2 ^ 31.

(** *** [operator<<(int)]: decimal digits, most significant first *)

Definition digit_char (d : Z) : ascii := ascii_of_N (Z.to_N (48 + d)).

Fixpoint print_digits (fuel : nat) (n : Z) (acc : str) : str :=
  match fuel with
  | O => acc
  | S f =>
      let acc' := digit_char (n mod 10) :: acc in
      if n / 10 =? 0 then acc' else print_digits f (n / 10) acc'
  end.

(** A number below [2 ^ k] has at most [k] decimal digits. *)
Definition print_nat (n : Z) : str :=
  print_digits (S (Z.to_nat (Z.log2 n))) n [].

Definition print_int (z : Z) : str :=
  if z <? 0 then "-" :: print_nat (- z) else print_nat z.

(** *** [std::stoi(s)], base 10

    [strtol] skips leading white space, reads an optional sign and the
    longest run of decimal digits, and ignores what follows.  [stoi] throws
    [std::invalid_argument] when there is no digit and [std::out_of_range]
    when the value does not fit an [int]; both are [None] here, as
    [fromCsv] catches them alike. *)

Definition isspace (c : ascii) : bool :=
  mem_char c [space; tab; LF; VT; FF; CR].

Definition isdigit (c : ascii) : bool :=
  let n := Z.of_N (N_of_ascii c) in (48 <=? n) && (n <=? 57).

Definition digit_val (c : ascii) : Z := Z.of_N (N_of_ascii c) - 48.

Fixpoint skip_space (s : str) : str :=
  match s with
  | c :: r => if isspace c then skip_space r else s
  | [] => []
  end.

Fixpoint digits_value (acc : Z) (s : str) : Z :=
  match s with
  | c :: r => if isdigit c then digits_value (10 * acc + digit_val c) r else acc
  | [] => acc
  end.

Definition stoi (s : str) : option Z :=
  let s1 := skip_space s in
  let '(neg, s2) :=
    match s1 with
    | c :: r =>
        if Ascii.eqb c "-" then (true, r)
        else if Ascii.eqb c "+" then (false, r)
        else (false, s1)
    | [] => (false, s1)
    end in
  match s2 with
  | c :: _ =>
      if isdigit c then
        let v := digits_value 0 s2 in
        let v := if neg then - v else v in
        if in_int v then Some v else None
      else None
  | [] => None
  end.

(** ** [class Task] *)

Record Task := mkTask {
  getId : Z;
  getTitle : str;
  getNotes : str;
  isCompleted : bool
}.

Definition setTitle (t : Task) (x : str) : Task :=
  mkTask (getId t) x (getNotes t) (isCompleted t).
Definition setNotes (t : Task) (x : str) : Task :=
  mkTask (getId t) (getTitle t) x (isCompleted t).
Definition setCompleted (t : Task) (c : bool) : Task :=
  mkTask (getId t) (getTitle t) (getNotes t) c.

Fixpoint escapeCommas (s : str) : str :=
  match s with
  | [] => []
  | c :: r =>
      if Ascii.eqb c comma then backslash :: comma :: escapeCommas r
      else if Ascii.eqb c LF || Ascii.eqb c CR then space :: escapeCommas r
      else c :: escapeCommas r
  end.

Fixpoint unescapeCommas (s : str) : str :=
  match s with
  | [] => []
  | c :: r =>
      match r with
      | c' :: r' =>
          if Ascii.eqb c backslash && Ascii.eqb c' comma
          then comma :: unescapeCommas r'
          else c :: unescapeCommas r
      | [] => c :: unescapeCommas r
      end
  end.

Definition toCsv (t : Task) : str :=
  print_int (getId t) ++ [comma]
  ++ (if isCompleted t then print_int 1 else print_int 0) ++ [comma]
  ++ escapeCommas (getTitle t) ++ [comma]
  ++ escapeCommas (getNotes t).

(** The splitting loop of [fromCsv], with its three variables [parts],
    [current] and [escape]; the result is [parts] after the final
    [parts.push_back(current)]. *)
Fixpoint split_loop (line : str) (parts : list str) (current : str)
    (escape : bool) : list str :=
  match line with
  | [] => parts ++ [current]
  | c :: r =>
      if escape then split_loop r parts (current ++ [c]) false
      else if Ascii.eqb c backslash then split_loop r parts current true
      else if Ascii.eqb c comma then split_loop r (parts ++ [current]) [] false
      else split_loop r parts (current ++ [c]) false
  end.

Definition split_fields (line : str) : list str := split_loop line [] [] false.

(** [static bool fromCsv(const std::string& line, Task& outTask)]:
    [Some t] is [true] with [outTask = t], [None] is [false]. *)
Definition fromCsv (line : str) : option Task :=
  let parts := split_fields line in
  if (length parts <? 4)%nat then None
  else
    match stoi (nth 0 parts []) with
    | None => None
    | Some id =>
        match stoi (nth 1 parts []) with
        | None => None
        | Some c =>
            let completed := negb (c =? 0) in
            let title := unescapeCommas (nth 2 parts []) in
            let notes := unescapeCommas (nth 3 parts []) in
            Some (mkTask id title notes completed)
        end
    end.

(** ** The file system *)

(** [contents p] is [None] when [p] cannot be opened for reading;
    [writable p] tells whether [p] can be opened for writing. *)
Record FileSystem := mkFS {
  contents : str -> option str;
  writable : str -> bool
}.

Definition str_eqb (a b : str) : bool :=
  if list_eq_dec ascii_dec a b then true else false.

Definition write_file (fs : FileSystem) (p text : str) : FileSystem :=
  mkFS (fun q => if str_eqb q p then Some text else contents fs q)
       (writable fs).

(** The lines [std::getline] yields on a stream holding [s]: a last line
    without its line feed is still read, unless it is empty. *)
Fixpoint getlines_from (s : str) (cur : str) : list str :=
  match s with
  | [] => match cur with [] => [] | _ => [cur] end
  | c :: r =>
      if Ascii.eqb c LF then cur :: getlines_from r []
      else getlines_from r (cur ++ [c])
  end.

Definition getlines (s : str) : list str := getlines_from s [].

(** ** [class TaskManager] *)

Record TaskManager := mkManager {
  tasks : list Task;
  nextId : Z;
  savePath : str
}.

(** [explicit TaskManager(const std::string& filePath = "tasks.csv")] *)
Definition newManager (filePath : str) : TaskManager :=
  mkManager [] 1 filePath.

(** [int generateId() { return nextId++; }] *)
Definition generateId (m : TaskManager) : Z * TaskManager :=
  (nextId m, mkManager (tasks m) (wrap_int (nextId m + 1)) (savePath m)).

(** The [while (std::getline(in, line))] loop of [load]. *)
Fixpoint load_loop (lines : list str) (ts : list Task) (maxSeen : Z)
  : list Task * Z :=
  match lines with
  | [] => (ts, maxSeen)
  | line :: rest =>
      let line := trim line in
      match line with
      | [] => load_loop rest ts maxSeen
      | _ =>
          match fromCsv line with
          | Some t =>
              load_loop rest (ts ++ [t])
                (if getId t >? maxSeen then getId t else maxSeen)
          | None => load_loop rest ts maxSeen
          end
      end
  end.

Definition load (fs : FileSystem) (m : TaskManager) : bool * TaskManager :=
  match contents fs (savePath m) with
  | None => (false, m)
  | Some text =>
      let '(ts, maxSeen) := load_loop (getlines text) [] 0 in
      (true, mkManager ts (wrap_int (maxSeen + 1)) (savePath m))
  end.

Definition save_text (ts : list Task) : str :=
  concat (map (fun t => toCsv t ++ [LF]) ts).

Definition save (fs : FileSystem) (m : TaskManager) : bool * FileSystem :=
  if writable fs (savePath m)
  then (true, write_file fs (savePath m) (save_text (tasks m)))
  else (false, fs).

Definition addTask (title notes : str) (m : TaskManager) : Z * TaskManager :=
  let '(i, m1) := generateId m in
  let t := mkTask i title notes false in
  (getId t, mkManager (tasks m1 ++ [t]) (nextId m1) (savePath m1)).

Fixpoint remove_first (id : Z) (ts : list Task) : bool * list Task :=
  match ts with
  | [] => (false, [])
  | t :: r =>
      if getId t =? id then (true, r)
      else let '(b, r') := remove_first id r in (b, t :: r')
  end.

Definition removeById (id : Z) (m : TaskManager) : bool * TaskManager :=
  let '(b, ts) := remove_first id (tasks m) in
  (b, mkManager ts (nextId m) (savePath m)).

(** The [for (auto& t : tasks)] loops of [toggleComplete] and [editTask]:
    the first task with the id is replaced by [f t] and the loop returns
    [true]; without one the vector is left as it is. *)
Fixpoint update_first (id : Z) (f : Task -> Task) (ts : list Task)
  : bool * list Task :=
  match ts with
  | [] => (false, [])
  | t :: r =>
      if getId t =? id then (true, f t :: r)
      else let '(b, r') := update_first id f r in (b, t :: r')
  end.

Definition toggleComplete (id : Z) (m : TaskManager) : bool * TaskManager :=
  let '(b, ts) :=
    update_first id (fun t => setCompleted t (negb (isCompleted t))) (tasks m) in
  (b, mkManager ts (nextId m) (savePath m)).

Definition edit_fields (newTitle newNotes : str) (t : Task) : Task :=
  let t1 := match newTitle with [] => t | _ => setTitle t newTitle end in
  match newNotes with [] => t1 | _ => setNotes t1 newNotes end.

Definition editTask (id : Z) (newTitle newNotes : str) (m : TaskManager)
  : bool * TaskManager :=
  let '(b, ts) := update_first id (edit_fields newTitle newNotes) (tasks m) in
  (b, mkManager ts (nextId m) (savePath m)).

Definition list_tasks (m : TaskManager) : list Task := tasks m.

Definition clearAll (m : TaskManager) : bool * TaskManager :=
  (true, mkManager [] (nextId m) (savePath m)).

(** ** The "Add task" branch of [main] *)

(** [readLine]: the next line of standard input, trimmed.  At the end of
    the input [std::getline] leaves the string empty. *)
Definition readLine (input : list str) : str * list str :=
  match input with
  | [] => ([], [])
  | l :: r => (trim l, r)
  end.

(** [title = readLine(...); while (title.empty()) title = readLine(...);]
    [None]: the input ends before a non-empty title, the loop never exits. *)
Fixpoint read_title (input : list str) : option (str * list str) :=
  match input with
  | [] => None
  | l :: r =>
      match trim l with
      | [] => read_title r
      | t => Some (t, r)
      end
  end.

Definition menu_add (input : list str) (m : TaskManager)
  : option (Z * TaskManager * list str) :=
  match read_title input with
  | None => None
  | Some (title, r) =>
      let '(notes, r') := readLine r in
      let '(i, m') := addTask title notes m in
      Some (i, m', r')
  end.

(** ** Sequences of operations *)

Inductive Op :=
| OpAdd (title notes : str)
| OpRemove (id : Z)
| OpToggle (id : Z)
| OpEdit (id : Z) (newTitle newNotes : str)
| OpClear
| OpLoad
| OpSave.

(** What an operation returns: the new id for [addTask], the flag for the
    others. *)
Inductive Result :=
| RId (i : Z)
| RFlag (b : bool).

Definition System := (TaskManager * FileSystem)%type.

Definition step (o : Op) (s : System) : Result * System :=
  let '(m, fs) := s in
  match o with
  | OpAdd title notes => let '(i, m') := addTask title notes m in (RId i, (m', fs))
  | OpRemove id => let '(b, m') := removeById id m in (RFlag b, (m', fs))
  | OpToggle id => let '(b, m') := toggleComplete id m in (RFlag b, (m', fs))
  | OpEdit id nt nn => let '(b, m') := editTask id nt nn m in (RFlag b, (m', fs))
  | OpClear => let '(b, m') := clearAll m in (RFlag b, (m', fs))
  | OpLoad => let '(b, m') := load fs m in (RFlag b, (m', fs))
  | OpSave => let '(b, fs') := save fs m in (RFlag b, (m, fs'))
  end.

Fixpoint run (ops : list Op) (s : System) : list Result * System :=
  match ops with
  | [] => ([], s)
  | o :: rest =>
      let '(r, s1) := step o s in
      let '(rs, s2) := run rest s1 in
      (r :: rs, s2)
  end.

(** The ids [addTask] returned, in order. *)
Definition returned_ids (rs : list Result) : list Z :=
  flat_map (fun r => match r with RId i => [i] | RFlag _ => [] end) rs.

Definition is_add (o : Op) : bool :=
  match o with OpAdd _ _ => true | _ => false end.

Definition is_load (o : Op) : bool :=
  match o with OpLoad => true | _ => false end.

Definition count_adds (ops : list Op) : nat :=
  List.length (filter is_add ops).

(** The ids of the tasks, in collection order. *)
Definition ids (ts : list Task) : list Z := map getId ts.

(** ** Notions used in the statements *)

(** The value a field has after [editTask]: an empty argument keeps the
    old text. *)
Definition edited (new old : str) : str :=
  match new with [] => old | _ => new end.

(** [c] is one of the characters [trim] removes. *)
Definition is_trim (c : ascii) : bool := mem_char c trim_set.

Arguments mem_char : simpl never.

(** [s] without its trailing [trim_set] characters. *)
Fixpoint rtrim (s : str) : str :=
  match s with
  | [] => []
  | c :: r =>
      match rtrim r with
      | [] => if is_trim c then [] else [c]
      | r' => c :: r'
      end
  end.

(** [s] without its leading [trim_set] characters. *)
Fixpoint ltrim (s : str) : str :=
  match s with
  | [] => []
  | c :: r => if is_trim c then ltrim r else s
  end.

(** A sequence of operations without [load]. *)
Definition no_load (ops : list Op) : Prop :=
  Forall (fun o => is_load o = false) ops.

(** The characters [operator<<(int)] writes: digits and the minus sign. *)
Definition is_plain (c : ascii) : bool := isdigit c || Ascii.eqb c "-".

(** What one line of the file contributes to the collection. *)
Definition accept (line : str) : list Task :=
  match fromCsv (trim line) with
  | Some t => [t]
  | None => []
  end.

(** The collection [load] builds from the lines of the file. *)
Definition loaded (lines : list str) : list Task := flat_map accept lines.

(** [if (t.getId() > maxSeen) maxSeen = t.getId();] *)
Definition bump (maxSeen : Z) (t : Task) : Z :=
  if getId t >? maxSeen then getId t else maxSeen.

(** Text that survives the file format: no backslash, no line break. *)
Definition field_char (c : ascii) : bool :=
  negb (Ascii.eqb c backslash || Ascii.eqb c LF || Ascii.eqb c CR).

Definition field_ok (s : str) : bool := forallb field_char s.

(** The last character is not one that [trim] removes. *)
Definition no_trailing_ws (s : str) : bool := negb (is_trim (last s "x")).

(** A task that [save] and [load] give back unchanged: the id is an
    [int], title and notes survive the format, and the notes, which end
    the line, do not end in a trimmed character. *)
Definition task_ok (t : Task) : bool :=
  in_int (getId t) && field_ok (getTitle t) && field_ok (getNotes t)
  && no_trailing_ws (getNotes t).

(** [oss << (completed ? 1 : 0)] *)
Definition flag_text (b : bool) : str := if b then print_int 1 else print_int 0.

(** The file at [p], when it can be opened, holds no two accepted lines
    with the same id. *)
Definition file_good (fs : FileSystem) (p : str) : Prop :=
  forall text,
    contents fs p = Some text -> NoDup (ids (loaded (getlines text))).

(** The [int] additions of the step do not overflow: [nextId++] in
    [addTask], [maxSeen + 1] in [load]. *)
Definition no_overflow (o : Op) (s : System) : Prop :=
  match o with
  | OpAdd _ _ => nextId (fst s) < INT_MAX
  | OpLoad =>
      forall text,
        contents (snd s) (savePath (fst s)) = Some text ->
        Forall (fun i => i < INT_MAX) (ids (loaded (getlines text)))
  | _ => True
  end.

(** The states of the store and its file system that the operations
    reach from [s0]. *)
Inductive reachable (s0 : System) : System -> Prop :=
| reach_init : reachable s0 s0
| reach_step s o :
    reachable s0 s -> no_overflow o s -> reachable s0 (snd (step o s)).

(** What every step keeps: the ids are pairwise distinct and below
    [nextId], [nextId] is an [int], the path is [p] and the file at [p] is
    good. *)
Definition id_invariant (p : str) (s : System) : Prop :=
  NoDup (ids (tasks (fst s)))
  /\ (forall i, In i (ids (tasks (fst s))) -> i < nextId (fst s))
  /\ INT_MIN <= nextId (fst s) <= INT_MAX
  /\ savePath (fst s) = p
  /\ file_good (snd s) p.

(** ** Sample stores, files and runs *)

Definition sample_store : TaskManager :=
  mkManager [mkTask 1 (lit "Buy milk") (lit "2%") false;
             mkTask 2 (lit "Walk dog") [] true] 3 (lit "tasks.csv").

Definition no_files : FileSystem := mkFS (fun _ => None) (fun _ => true).

Definition sample_ops : list Op :=
  [OpAdd (lit "Buy milk") (lit "2%"); OpAdd (lit "Walk dog") [];
   OpToggle 1; OpRemove 2; OpAdd (lit "Call mum") []; OpClear;
   OpEdit 3 (lit "x") []; OpAdd (lit "Pay rent") []].

(** Test files: [file_of lines] holds the lines, each ended by a line
    feed; [one_file p text] is a file system with that single file. *)
Definition file_of (lines : list str) : str :=
  concat (map (fun l => l ++ [LF]) lines).

Definition one_file (p text : str) : FileSystem :=
  mkFS (fun q => if str_eqb q p then Some text else None) (fun _ => true).

Definition file_375 : FileSystem :=
  one_file (lit "tasks.csv")
    (file_of [lit "3,0,a,b"; lit "7,1,c,d"; lit "5,0,e,f"]).

Definition comma_store : TaskManager :=
  mkManager [mkTask 1 (lit "Buy milk, eggs") [] true;
             mkTask 2 (lit "Walk dog") (lit "a, b") false] 3 (lit "tasks.csv").

Definition sample_run : list Op :=
  [OpAdd (lit "Buy milk") (lit "2%"); OpAdd (lit "Walk dog") []; OpSave;
   OpRemove 1; OpAdd (lit "Call mum") []; OpLoad; OpAdd (lit "Pay rent") []].

(** A file whose completed fields are 2, -1 and 0. *)
Definition file_flags : FileSystem :=
  one_file (lit "tasks.csv")
    (file_of [lit "7,2,a,b"; lit "8,-1,c,d"; lit "9,0,e,f"]).

(** [INT_MAX + 1] adds in a row. *)
Definition overflow_run : list Op :=
  repeat (OpAdd [] []) (Z.to_nat (INT_MAX - 1)) ++ [OpAdd [] []; OpAdd [] []].

Definition reuse_run : list Op :=
  [OpAdd (lit "a") []; OpAdd (lit "b") []; OpRemove 2; OpSave; OpLoad;
   OpAdd (lit "c") []].

(** ** Further code and notions for it *)

(** What [escapeCommas] does to a character that is not a comma. *)
Definition nl_to_space (c : ascii) : ascii :=
  if Ascii.eqb c LF || Ascii.eqb c CR then space else c.

Definition count_commas (s : str) : nat :=
  List.length (filter (fun c => Ascii.eqb c comma) s).

Definition no_backslash (s : str) : bool :=
  forallb (fun c => negb (Ascii.eqb c backslash)) s.

(** [std::cout << std::left << std::setw(w) << s]: [s] followed by spaces
    up to width [w]; a longer [s] is written whole. *)
Definition left_setw (w : nat) (s : str) : str :=
  s ++ repeat space (w - List.length s).

(** One row of the table [printTasks] writes, without its line feed. *)
Definition task_row (t : Task) : str :=
  left_setw 6 (print_int (getId t))
  ++ left_setw 12 (if isCompleted t then lit "Complete" else lit "Open")
  ++ left_setw 30 (getTitle t)
  ++ getNotes t.

Definition table_header : str :=
  left_setw 6 (lit "ID") ++ left_setw 12 (lit "Status")
  ++ left_setw 30 (lit "Title") ++ lit "Notes".

Definition table_rule : str := repeat "="%char 75.

(** [static void printTasks(const std::vector<Task>& tasks)]: the text
    written to [std::cout]. *)
Definition printTasks (ts : list Task) : str :=
  match ts with
  | [] => lit "No tasks found." ++ [LF]
  | _ =>
      [LF]
      ++ table_header ++ [LF]
      ++ table_rule ++ [LF]
      ++ concat (map (fun t => task_row t ++ [LF]) ts)
      ++ [LF]
  end.

Definition no_LF (s : str) : bool :=
  forallb (fun c => negb (Ascii.eqb c LF)) s.

(** The "Edit task" branch of [main] after [readInt] returned [id]: two
    calls of [readLine], then [editTask]. *)
Definition menu_edit (id : Z) (input : list str) (m : TaskManager)
  : bool * TaskManager * list str :=
  let '(newTitle, r) := readLine input in
  let '(newNotes, r') := readLine r in
  let '(b, m') := editTask id newTitle newNotes m in
  (b, m', r').

Definition is_save (o : Op) : bool :=
  match o with OpSave => true | _ => false end.

(** A sequence of operations without [save]. *)
Definition no_save (ops : list Op) : Prop :=
  Forall (fun o => is_save o = false) ops.

(** Every task has a title. *)
Definition titles_nonempty (ts : list Task) : Prop :=
  Forall (fun t => getTitle t <> []) ts.

(** Every id in the store is below [nextId], and [nextId] is a positive
    [int]. *)
Definition counter_invariant (s : System) : Prop :=
  (forall i, In i (ids (tasks (fst s))) -> i < nextId (fst s))
  /\ 1 <= nextId (fst s) <= INT_MAX.

(** * Properties *)

(** ** [int] arithmetic *)

Lemma wrap_int_small z : INT_MIN <= z <= INT_MAX -> wrap_int z = z.
Proof.
  unfold INT_MIN, INT_MAX, wrap_int. intros H.
  rewrite Z.mod_small; lia.
Qed.

Lemma in_int_spec z : in_int z = true <-> INT_MIN <= z <= INT_MAX.
Proof. unfold in_int. rewrite andb_true_iff, !Z.leb_le. tauto. Qed.

(** ** The search loops *)

Lemma update_first_absent id f ts :
  ~ In id (ids ts) -> update_first id f ts = (false, ts).
Proof.
  induction ts as [|t r IH]; simpl; intros H; [reflexivity|].
  destruct (Z.eqb_spec (getId t) id) as [E|E]; [tauto|].
  rewrite IH by tauto. reflexivity.
Qed.

Lemma update_first_split id f l1 t l2 :
  ~ In id (ids l1) -> getId t = id ->
  update_first id f (l1 ++ t :: l2) = (true, l1 ++ f t :: l2).
Proof.
  intros H1 Ht. induction l1 as [|u r IH]; simpl in *.
  - rewrite Ht, Z.eqb_refl. reflexivity.
  - destruct (Z.eqb_spec (getId u) id) as [E|E]; [tauto|].
    rewrite IH by tauto. reflexivity.
Qed.

(** Every list holding the id splits at the first task that has it. *)
Lemma first_with_id id ts :
  In id (ids ts) ->
  exists l1 t l2,
    ts = l1 ++ t :: l2 /\ getId t = id /\ ~ In id (ids l1).
Proof.
  induction ts as [|u r IH]; simpl; intros H; [contradiction|].
  destruct (Z.eq_dec (getId u) id) as [E|E].
  - exists [], u, r. simpl. tauto.
  - destruct IH as (l1 & t & l2 & -> & Ht & Hn); [tauto|].
    exists (u :: l1), t, l2. simpl. repeat split; tauto.
Qed.

Lemma update_first_ids id f ts :
  (forall t, getId (f t) = getId t) ->
  ids (snd (update_first id f ts)) = ids ts.
Proof.
  intros Hf. induction ts as [|t r IH]; simpl; [reflexivity|].
  destruct (getId t =? id); simpl.
  - now rewrite Hf.
  - destruct (update_first id f r); simpl in *. now rewrite IH.
Qed.

Lemma remove_first_incl id ts t :
  In t (snd (remove_first id ts)) -> In t ts.
Proof.
  induction ts as [|u r IH]; simpl; [tauto|].
  destruct (getId u =? id); simpl; [tauto|].
  destruct (remove_first id r); simpl in *. tauto.
Qed.

Lemma remove_first_NoDup id ts :
  NoDup (ids ts) -> NoDup (ids (snd (remove_first id ts))).
Proof.
  induction ts as [|u r IH]; simpl; intros H; [constructor|].
  inversion H as [|? ? Hu Hr]; subst.
  destruct (getId u =? id); simpl; [assumption|].
  pose proof (remove_first_incl id r) as Hin.
  destruct (remove_first id r) as [b r']; simpl in *.
  constructor; [|now apply IH].
  intros Hc. apply Hu. unfold ids in *. rewrite in_map_iff in *.
  destruct Hc as (x & Hx & Hi). exists x. auto.
Qed.

(** ** Edit *)

Lemma edit_fields_eq nt nn t :
  edit_fields nt nn t =
  mkTask (getId t) (edited nt (getTitle t)) (edited nn (getNotes t))
         (isCompleted t).
Proof. destruct t, nt, nn; reflexivity. Qed.

(** C8.  When the store holds a task with the id, [editTask] returns
    [true] and changes only the first (under the id invariant, the only)
    such task: its title becomes the new title unless that is empty, its
    notes the new notes unless they are empty, its id and completed flag
    stay, and every other task stays; so empty arguments change nothing
    and an empty [newNotes] changes the title only.  Without such a task it
    returns [false] and the store is unchanged. *)
Theorem editTask_spec (m : TaskManager) (id : Z) (newTitle newNotes : str) :
  (forall l1 t l2,
     tasks m = l1 ++ t :: l2 -> getId t = id -> ~ In id (ids l1) ->
     editTask id newTitle newNotes m =
       (true,
        mkManager
          (l1 ++ mkTask (getId t) (edited newTitle (getTitle t))
                        (edited newNotes (getNotes t)) (isCompleted t) :: l2)
          (nextId m) (savePath m)))
  /\ (In id (ids (tasks m)) -> fst (editTask id newTitle newNotes m) = true)
  /\ (In id (ids (tasks m)) -> newTitle = [] -> newNotes = [] ->
        editTask id newTitle newNotes m = (true, m))
  /\ (~ In id (ids (tasks m)) ->
        editTask id newTitle newNotes m = (false, m)).
Proof.
  assert (Hgen : forall l1 t l2,
     tasks m = l1 ++ t :: l2 -> getId t = id -> ~ In id (ids l1) ->
     editTask id newTitle newNotes m =
       (true,
        mkManager
          (l1 ++ mkTask (getId t) (edited newTitle (getTitle t))
                        (edited newNotes (getNotes t)) (isCompleted t) :: l2)
          (nextId m) (savePath m))).
  { intros l1 t l2 E Ht Hn. unfold editTask.
    rewrite E, (update_first_split _ _ _ _ _ Hn Ht).
    now rewrite edit_fields_eq. }
  split; [exact Hgen|]. split; [|split].
  - intros Hin.
    destruct (first_with_id id (tasks m) Hin) as (l1 & t & l2 & E & Ht & Hn).
    now rewrite (Hgen l1 t l2 E Ht Hn).
  - intros Hin -> ->.
    destruct (first_with_id id (tasks m) Hin) as (l1 & t & l2 & E & Ht & Hn).
    rewrite (Hgen l1 t l2 E Ht Hn). simpl.
    destruct m as [ts n p], t. simpl in *. now subst ts.
  - intros Hn. unfold editTask. rewrite (update_first_absent _ _ _ Hn).
    now destruct m.
Qed.

Lemma editTask_spec_witness :
  editTask 2 (lit "New") [] sample_store =
    (true,
     mkManager [mkTask 1 (lit "Buy milk") (lit "2%") false;
                mkTask 2 (lit "New") [] true] 3 (lit "tasks.csv"))
  /\ editTask 2 [] [] sample_store = (true, sample_store)
  /\ editTask 5 (lit "New") [] sample_store = (false, sample_store).
Proof.
  split; [|split].
  - apply (proj1 (editTask_spec sample_store 2 (lit "New") [])
             [mkTask 1 (lit "Buy milk") (lit "2%") false]
             (mkTask 2 (lit "Walk dog") [] true) []).
    + reflexivity.
    + reflexivity.
    + simpl. intros [H|[]]. discriminate H.
  - apply (proj1 (proj2 (proj2 (editTask_spec sample_store 2 [] [])))).
    + simpl. tauto.
    + reflexivity.
    + reflexivity.
  - apply (proj2 (proj2 (proj2 (editTask_spec sample_store 5 (lit "New") [])))).
    simpl. intros [H|[H|[]]]; discriminate H.
Defined.

(** ** Toggle *)

(** C9.  When the store holds a task with the id, [toggleComplete] returns
    [true], negates the completed flag of the first (under the id
    invariant, the only) such task and leaves its id, title and notes and
    every other task as they were; a second call with the same id returns
    [true] and gives back the original store.  Without such a task it
    returns [false] and changes nothing. *)
Theorem toggleComplete_spec (m : TaskManager) (id : Z) :
  (forall l1 t l2,
     tasks m = l1 ++ t :: l2 -> getId t = id -> ~ In id (ids l1) ->
     toggleComplete id m =
       (true,
        mkManager
          (l1 ++ mkTask (getId t) (getTitle t) (getNotes t)
                        (negb (isCompleted t)) :: l2)
          (nextId m) (savePath m)))
  /\ (In id (ids (tasks m)) ->
        fst (toggleComplete id m) = true /\
        toggleComplete id (snd (toggleComplete id m)) = (true, m))
  /\ (~ In id (ids (tasks m)) -> toggleComplete id m = (false, m)).
Proof.
  assert (Hgen : forall m l1 t l2,
     tasks m = l1 ++ t :: l2 -> getId t = id -> ~ In id (ids l1) ->
     toggleComplete id m =
       (true,
        mkManager
          (l1 ++ mkTask (getId t) (getTitle t) (getNotes t)
                        (negb (isCompleted t)) :: l2)
          (nextId m) (savePath m))).
  { intros m0 l1 t l2 E Ht Hn. unfold toggleComplete.
    now rewrite E, (update_first_split _ _ _ _ _ Hn Ht). }
  split; [apply Hgen|]. split.
  - intros Hin.
    destruct (first_with_id id (tasks m) Hin) as (l1 & t & l2 & E & Ht & Hn).
    rewrite (Hgen m l1 t l2 E Ht Hn). split; [reflexivity|]. simpl.
    erewrite Hgen; [|reflexivity|exact Ht|exact Hn]. simpl.
    rewrite negb_involutive.
    destruct m as [ts n p], t. simpl in *. now subst ts.
  - intros Hn. unfold toggleComplete. rewrite (update_first_absent _ _ _ Hn).
    now destruct m.
Qed.

Lemma toggleComplete_spec_witness :
  toggleComplete 1 sample_store =
    (true,
     mkManager [mkTask 1 (lit "Buy milk") (lit "2%") true;
                mkTask 2 (lit "Walk dog") [] true] 3 (lit "tasks.csv"))
  /\ toggleComplete 1 (snd (toggleComplete 1 sample_store))
     = (true, sample_store)
  /\ toggleComplete 9 sample_store = (false, sample_store).
Proof.
  split; [|split].
  - apply (proj1 (toggleComplete_spec sample_store 1) []
             (mkTask 1 (lit "Buy milk") (lit "2%") false)
             [mkTask 2 (lit "Walk dog") [] true]).
    + reflexivity.
    + reflexivity.
    + simpl. tauto.
  - apply (proj1 (proj2 (toggleComplete_spec sample_store 1))).
    simpl. tauto.
  - apply (proj2 (proj2 (toggleComplete_spec sample_store 9))).
    simpl. intros [H|[H|[]]]; discriminate H.
Defined.

(** ** Load from a resource that cannot be opened *)

(** C5.  When the file at [savePath] cannot be opened, [load] returns
    [false] and the store (tasks and [nextId]) is exactly as before. *)
Theorem load_unopenable (fs : FileSystem) (m : TaskManager) :
  contents fs (savePath m) = None ->
  load fs m = (false, m)
  /\ tasks (snd (load fs m)) = tasks m
  /\ nextId (snd (load fs m)) = nextId m.
Proof. intros E. unfold load. rewrite E. repeat split. Qed.

Lemma load_unopenable_witness :
  load no_files sample_store = (false, sample_store)
  /\ tasks sample_store <> [].
Proof.
  split.
  - apply (proj1 (load_unopenable no_files sample_store eq_refl)).
  - discriminate.
Defined.

(** ** [trim] *)

Lemma rtrim_cons c r : is_trim c = false -> rtrim (c :: r) = c :: rtrim r.
Proof. simpl. intros ->. now destruct (rtrim r). Qed.

Lemma find_last_rtrim s :
  match find_last_not_of s trim_set with
  | Some b => firstn (S b) s = rtrim s
  | None => rtrim s = []
  end.
Proof.
  induction s as [|c r IH]; simpl; [reflexivity|].
  destruct (find_last_not_of r trim_set) as [b|] eqn:E.
  - rewrite <- IH. destruct r as [|x r']; [discriminate E|reflexivity].
  - rewrite IH. fold (is_trim c). now destruct (is_trim c).
Qed.

Lemma trim_cons_ws c r : is_trim c = true -> trim (c :: r) = trim r.
Proof.
  unfold trim, is_trim. simpl. intros ->.
  pose proof (find_last_rtrim r) as Hl.
  destruct (find_first_not_of r trim_set) as [a|] eqn:Ea; simpl;
    [|reflexivity].
  destruct (find_last_not_of r trim_set) as [b|]; [reflexivity|].
  unfold substr. simpl skipn.
  rewrite !firstn_all2; [reflexivity| |]; rewrite length_skipn; simpl; lia.
Qed.

Lemma trim_cons_nws c r : is_trim c = false -> trim (c :: r) = c :: rtrim r.
Proof.
  unfold trim, is_trim. simpl. intros ->.
  pose proof (find_last_rtrim r) as Hl. unfold substr.
  destruct (find_last_not_of r trim_set) as [b|].
  - replace (S b - 0 + 1)%nat with (S (S b)) by lia.
    rewrite <- Hl. reflexivity.
  - rewrite Hl. reflexivity.
Qed.

Lemma trim_nil : trim [] = [].
Proof. reflexivity. Qed.

Lemma trim_ltrim_rtrim s : trim s = rtrim (ltrim s).
Proof.
  induction s as [|c r IH]; [reflexivity|]. simpl ltrim.
  destruct (is_trim c) eqn:E.
  - now rewrite trim_cons_ws.
  - now rewrite trim_cons_nws, rtrim_cons.
Qed.

Lemma rtrim_app_tight a c e :
  is_trim c = false -> rtrim (a ++ c :: e) = a ++ c :: rtrim e.
Proof.
  intros Hc. induction a as [|x a IH]; simpl app.
  - now apply rtrim_cons.
  - simpl. rewrite IH. destruct a; reflexivity.
Qed.

Lemma rtrim_idem s : rtrim (rtrim s) = rtrim s.
Proof.
  induction s as [|c r IH]; [reflexivity|]. simpl.
  destruct (rtrim r) as [|x r'] eqn:E.
  - destruct (is_trim c) eqn:Ec; simpl; [reflexivity|now rewrite Ec].
  - simpl in *. rewrite IH. reflexivity.
Qed.

Lemma ltrim_head s :
  match ltrim s with [] => True | c :: _ => is_trim c = false end.
Proof.
  induction s as [|c r IH]; simpl; [exact I|].
  destruct (is_trim c) eqn:E; [exact IH|exact E].
Qed.

(** What [trim] returns is empty or starts with a kept character, and
    trimming it again changes nothing. *)
Lemma trim_head s :
  match trim s with [] => True | c :: _ => is_trim c = false end.
Proof.
  rewrite trim_ltrim_rtrim. pose proof (ltrim_head s) as H.
  destruct (ltrim s) as [|c r]; [exact I|].
  rewrite rtrim_cons by exact H. exact H.
Qed.

Lemma trim_idem s : trim (trim s) = trim s.
Proof.
  pose proof (trim_head s) as H. rewrite (trim_ltrim_rtrim s) in *.
  destruct (rtrim (ltrim s)) as [|c r] eqn:E; [reflexivity|].
  rewrite trim_cons_nws by exact H.
  pose proof (rtrim_idem (ltrim s)) as Hi. rewrite E in Hi.
  rewrite rtrim_cons in Hi by exact H. congruence.
Qed.

(** ** Add *)

Lemma addTask_eq title notes m :
  addTask title notes m =
    (nextId m,
     mkManager (tasks m ++ [mkTask (nextId m) title notes false])
               (wrap_int (nextId m + 1)) (savePath m)).
Proof. reflexivity. Qed.

Lemma read_title_spec input title rest :
  read_title input = Some (title, rest) ->
  title <> [] /\ trim title = title.
Proof.
  induction input as [|l r IH]; simpl; [discriminate|].
  destruct (trim l) as [|c t] eqn:E; [exact IH|].
  intros H. injection H as <- <-. split; [discriminate|].
  rewrite <- E. apply trim_idem.
Qed.

(** C1, as the code has it.  [addTask] does not look at the title: for
    every title, the empty one included, it returns [nextId], appends the
    task with that id and [completed = false] and increments [nextId].
    Empty titles are refused by the "Add task" branch of [main]: it trims
    each line it reads and asks again while the result is empty, so it
    calls [addTask] only with a title that is non-empty and trimmed, and
    never calls it when every remaining input line is blank. *)
Theorem addTask_unguarded_menu_guarded :
  (forall title notes m,
     addTask title notes m =
       (nextId m,
        mkManager (tasks m ++ [mkTask (nextId m) title notes false])
                  (wrap_int (nextId m + 1)) (savePath m)))
  /\ (forall input m i m' rest,
        menu_add input m = Some (i, m', rest) ->
        exists title notes,
          title <> [] /\ trim title = title /\
          addTask title notes m = (i, m'))
  /\ (forall input m,
        Forall (fun l => trim l = []) input -> menu_add input m = None).
Proof.
  split; [exact addTask_eq|]. split.
  - intros input m i m' rest. unfold menu_add.
    destruct (read_title input) as [[title r]|] eqn:E; [|discriminate].
    destruct (readLine r) as [notes r'].
    destruct (addTask title notes m) as [j m1] eqn:Ea.
    intros H. injection H as <- <- <-.
    destruct (read_title_spec _ _ _ E) as [H1 H2].
    exists title, notes. auto.
  - intros input m H. unfold menu_add.
    assert (E : read_title input = None).
    { induction H as [|l r Hl _ IH]; simpl; [reflexivity|].
      now rewrite Hl. }
    now rewrite E.
Qed.

Lemma addTask_unguarded_menu_guarded_witness :
  (exists title notes,
     title <> [] /\ trim title = title /\
     addTask title notes (newManager (lit "tasks.csv")) =
       (1, mkManager [mkTask 1 (lit "Buy milk") (lit "2%") false] 2
                     (lit "tasks.csv")))
  /\ menu_add [lit "  "; []] (newManager (lit "tasks.csv")) = None.
Proof.
  split.
  - apply (proj1 (proj2 addTask_unguarded_menu_guarded)
             [lit "   "; lit " Buy milk "; lit "2%"]
             (newManager (lit "tasks.csv")) 1 _ []).
    reflexivity.
  - apply (proj2 (proj2 addTask_unguarded_menu_guarded)).
    repeat constructor.
Defined.

(** C1 as stated fails: [addTask] with an empty title, and with a title
    of two spaces, returns an id, grows the collection by one task and
    moves [nextId]. *)
Lemma addTask_empty_title_accepted :
  let m := newManager (lit "tasks.csv") in
  trim [] = [] /\ trim (lit "  ") = [] /\
  addTask [] (lit "n") m =
    (1, mkManager [mkTask 1 [] (lit "n") false] 2 (lit "tasks.csv")) /\
  addTask (lit "  ") (lit "n") m =
    (1, mkManager [mkTask 1 (lit "  ") (lit "n") false] 2 (lit "tasks.csv")) /\
  snd (addTask [] (lit "n") m) <> m /\
  List.length (tasks (snd (addTask [] (lit "n") m)))
    = S (List.length (tasks m)).
Proof.
  cbv zeta. repeat split; try reflexivity. discriminate.
Qed.

(** ** Ids handed out without a load *)

Lemma removeById_nextId id m : nextId (snd (removeById id m)) = nextId m.
Proof. unfold removeById. now destruct (remove_first id (tasks m)). Qed.

Lemma toggleComplete_nextId id m :
  nextId (snd (toggleComplete id m)) = nextId m.
Proof. unfold toggleComplete. now destruct (update_first id _ (tasks m)). Qed.

Lemma editTask_nextId id nt nn m :
  nextId (snd (editTask id nt nn m)) = nextId m.
Proof. unfold editTask. now destruct (update_first id _ (tasks m)). Qed.

(** One step that is not a load: an add returns [nextId] and moves it by
    one, every other operation returns a flag and leaves it. *)
Lemma step_no_load o m fs :
  is_load o = false ->
  INT_MIN <= nextId m -> nextId m + 1 <= INT_MAX ->
  let '(r, (m', _)) := step o (m, fs) in
  if is_add o
  then r = RId (nextId m) /\ nextId m' = nextId m + 1
  else returned_ids [r] = [] /\ nextId m' = nextId m.
Proof.
  intros Hl Hlo Hhi. destruct o; simpl in *; try discriminate.
  - split; [reflexivity|]. apply wrap_int_small. lia.
  - pose proof (removeById_nextId id m). destruct (removeById id m). auto.
  - pose proof (toggleComplete_nextId id m).
    destruct (toggleComplete id m). auto.
  - pose proof (editTask_nextId id newTitle newNotes m).
    destruct (editTask id newTitle newNotes m). auto.
  - auto.
  - destruct (save fs m). auto.
Qed.

Lemma returned_ids_cons r rs :
  returned_ids (r :: rs) = returned_ids [r] ++ returned_ids rs.
Proof. unfold returned_ids. simpl. now rewrite app_nil_r. Qed.

Lemma run_no_load ops : forall m fs,
  no_load ops ->
  INT_MIN <= nextId m ->
  nextId m + Z.of_nat (count_adds ops) <= INT_MAX ->
  returned_ids (fst (run ops (m, fs)))
    = map (fun k => nextId m + Z.of_nat k) (seq 0 (count_adds ops))
  /\ nextId (fst (snd (run ops (m, fs))))
     = nextId m + Z.of_nat (count_adds ops).
Proof.
  induction ops as [|o rest IH]; intros m fs Hnl Hlo Hhi.
  - simpl. split; [reflexivity|lia].
  - inversion Hnl as [|? ? Ho Hrest]; subst.
    unfold count_adds in *. cbn [run filter] in *.
    destruct (is_add o) eqn:Ea.
    + cbn [List.length] in Hhi.
      pose proof (step_no_load o m fs Ho Hlo ltac:(lia)) as Hs.
      destruct (step o (m, fs)) as [r [m1 fs1]]. rewrite Ea in Hs.
      destruct Hs as [-> Hn].
      destruct (IH m1 fs1 Hrest ltac:(lia) ltac:(lia)) as [H1 H2].
      destruct (run rest (m1, fs1)) as [rs s2]. cbn [fst snd] in *.
      cbn [List.length seq map returned_ids flat_map app].
      fold (returned_ids rs). rewrite H1, H2, Hn. split; [|lia].
      f_equal; [lia|]. rewrite <- seq_shift, map_map.
      apply map_ext. intros k. lia.
    + destruct (Z_le_gt_dec (nextId m + 1) INT_MAX) as [Hle|Hgt].
      * pose proof (step_no_load o m fs Ho Hlo Hle) as Hs.
        destruct (step o (m, fs)) as [r [m1 fs1]]. rewrite Ea in Hs.
        destruct Hs as [Hr Hn].
        destruct (IH m1 fs1 Hrest ltac:(lia) ltac:(lia)) as [H1 H2].
        destruct (run rest (m1, fs1)) as [rs s2]. cbn [fst snd] in *.
        rewrite returned_ids_cons.
        rewrite Hr, H1, H2, Hn. split; reflexivity.
      * (* [nextId = INT_MAX]: no add follows, nothing wraps *)
        assert (Hn : nextId (fst (snd (step o (m, fs)))) = nextId m
                     /\ returned_ids [fst (step o (m, fs))] = []).
        { destruct o; simpl in *; try discriminate.
          - pose proof (removeById_nextId id m).
            destruct (removeById id m). auto.
          - pose proof (toggleComplete_nextId id m).
            destruct (toggleComplete id m). auto.
          - pose proof (editTask_nextId id newTitle newNotes m).
            destruct (editTask id newTitle newNotes m). auto.
          - auto.
          - destruct (save fs m). auto. }
        destruct (step o (m, fs)) as [r [m1 fs1]]. cbn [fst snd] in Hn.
        destruct Hn as [Hn Hr].
        destruct (IH m1 fs1 Hrest ltac:(lia) ltac:(lia)) as [H1 H2].
        destruct (run rest (m1, fs1)) as [rs s2]. cbn [fst snd] in *.
        rewrite returned_ids_cons.
        rewrite Hr, H1, H2, Hn. split; reflexivity.
Qed.

Lemma seq_from_sorted len : forall start,
  StronglySorted Z.lt (map Z.of_nat (seq start len)).
Proof.
  induction len as [|len IH]; intros start; simpl; constructor.
  - apply IH.
  - apply Forall_forall. intros x Hx. apply in_map_iff in Hx.
    destruct Hx as (k & <- & Hk). apply in_seq in Hk. lia.
Qed.

Lemma sorted_lt_NoDup l : StronglySorted Z.lt l -> NoDup l.
Proof.
  induction 1 as [|a l Hs IH Ha]; constructor; [|exact IH].
  intros Hin. rewrite Forall_forall in Ha. specialize (Ha a Hin). lia.
Qed.

(** C7, as the code has it.  On a freshly constructed store, for every
    sequence of add, remove, toggle, edit and clear operations (saves
    allowed, no load) with fewer than [INT_MAX] adds, so that the [int]
    counter does not overflow, the ids the adds return are 1, 2, 3, ... in
    this order: strictly increasing, pairwise distinct, starting at 1,
    whatever was removed or cleared in between; [nextId] ends one above
    the number of adds, and neither [removeById] nor [clearAll] changes
    it. *)
Theorem fresh_ids_increasing (path : str) (fs : FileSystem) (ops : list Op) :
  no_load ops ->
  Z.of_nat (count_adds ops) < INT_MAX ->
  let out := run ops (newManager path, fs) in
  returned_ids (fst out) = map Z.of_nat (seq 1 (count_adds ops))
  /\ StronglySorted Z.lt (returned_ids (fst out))
  /\ NoDup (returned_ids (fst out))
  /\ nextId (fst (snd out)) = 1 + Z.of_nat (count_adds ops)
  /\ (forall id m, nextId (snd (removeById id m)) = nextId m)
  /\ (forall m, nextId (snd (clearAll m)) = nextId m).
Proof.
  intros Hnl Hn out.
  destruct (run_no_load ops (newManager path) fs Hnl) as [H1 H2].
  { now vm_compute. }
  { cbn [nextId newManager]. lia. }
  fold out in H1, H2. simpl nextId in H1, H2.
  assert (E : returned_ids (fst out) = map Z.of_nat (seq 1 (count_adds ops))).
  { rewrite H1, <- seq_shift, map_map. apply map_ext. intros k. lia. }
  split; [exact E|]. rewrite E.
  split; [apply seq_from_sorted|].
  split; [apply sorted_lt_NoDup, seq_from_sorted|].
  split; [exact H2|].
  split; [apply removeById_nextId|reflexivity].
Qed.

Lemma fresh_ids_increasing_witness :
  returned_ids (fst (run sample_ops (newManager (lit "tasks.csv"), no_files)))
    = [1; 2; 3; 4]
  /\ nextId (fst (snd (run sample_ops
                         (newManager (lit "tasks.csv"), no_files)))) = 5.
Proof.
  destruct (fresh_ids_increasing (lit "tasks.csv") no_files sample_ops)
    as (H1 & _ & _ & H2 & _).
  - repeat constructor.
  - reflexivity.
  - split; [exact H1|exact H2].
Defined.

Lemma run_app a : forall b s,
  run (a ++ b) s =
  (fst (run a s) ++ fst (run b (snd (run a s))), snd (run b (snd (run a s)))).
Proof.
  induction a as [|o a IH]; intros b s; cbn [app run].
  - cbn [fst snd app]. now destruct (run b s).
  - destruct (step o s) as [r s1]. rewrite IH.
    destruct (run a s1) as [rs s2]. cbn [fst snd].
    now destruct (run b s2).
Qed.

Lemma returned_ids_app r1 r2 :
  returned_ids (r1 ++ r2) = returned_ids r1 ++ returned_ids r2.
Proof. apply flat_map_app. Qed.

Lemma count_adds_repeat t n k : count_adds (repeat (OpAdd t n) k) = k.
Proof.
  unfold count_adds. induction k as [|k IH]; [reflexivity|].
  cbn [repeat filter is_add List.length]. now rewrite IH.
Qed.

Lemma no_load_repeat t n k : no_load (repeat (OpAdd t n) k).
Proof.
  apply Forall_forall. intros o Ho. apply repeat_spec in Ho. now subst.
Qed.

Lemma two_adds_ids t n m fs :
  returned_ids (fst (run [OpAdd t n; OpAdd t n] (m, fs)))
  = [nextId m; wrap_int (nextId m + 1)].
Proof. reflexivity. Qed.

(** After [INT_MAX - 1] adds on a fresh store the next two adds return
    [INT_MAX] and then [INT_MIN]. *)
Lemma adds_past_INT_MAX k path fs :
  Z.of_nat k = INT_MAX - 1 ->
  exists l,
    returned_ids
      (fst (run (repeat (OpAdd [] []) k ++ [OpAdd [] []; OpAdd [] []])
                (newManager path, fs)))
    = l ++ [INT_MAX; INT_MIN].
Proof.
  intros Hk. rewrite run_app. cbn [fst]. rewrite returned_ids_app.
  destruct (run_no_load (repeat (OpAdd [] []) k) (newManager path) fs)
    as [_ H2].
  - apply no_load_repeat.
  - now vm_compute.
  - rewrite count_adds_repeat, Hk. cbn [nextId newManager]. lia.
  - rewrite count_adds_repeat, Hk in H2. cbn [nextId newManager] in H2.
    destruct (snd (run (repeat (OpAdd [] []) k) (newManager path, fs)))
      as [m1 fs1]. cbn [fst] in H2.
    rewrite two_adds_ids, H2.
    replace (1 + (INT_MAX - 1)) with INT_MAX by lia.
    eexists. reflexivity.
Qed.

Lemma sorted_last_two l a b :
  StronglySorted Z.lt (l ++ [a; b]) -> a < b.
Proof.
  induction l as [|x l IH]; cbn [app]; intros H;
    inversion H as [|? ? Hs Hf]; subst.
  - inversion Hf; assumption.
  - now apply IH.
Qed.

(** C7 as stated fails: [overflow_run] is [INT_MAX + 1] adds on a fresh
    store and nothing else; the last two ids returned are [INT_MAX] and
    then, [nextId++] having wrapped, [INT_MIN], so the returned ids are
    not strictly increasing. *)
Lemma ids_wrap_after_INT_MAX_adds :
  no_load overflow_run
  /\ (exists l,
        returned_ids
          (fst (run overflow_run (newManager (lit "tasks.csv"), no_files)))
        = l ++ [INT_MAX; INT_MIN])
  /\ ~ StronglySorted Z.lt
         (returned_ids
            (fst (run overflow_run (newManager (lit "tasks.csv"), no_files)))).
Proof.
  assert (Hk : Z.of_nat (Z.to_nat (INT_MAX - 1)) = INT_MAX - 1).
  { apply Z2Nat.id. now vm_compute. }
  destruct (adds_past_INT_MAX _ (lit "tasks.csv") no_files Hk) as [l Hl].
  unfold overflow_run. split; [|split].
  - apply Forall_app. split; [apply no_load_repeat|repeat constructor].
  - exists l. exact Hl.
  - rewrite Hl. intros Hs. apply sorted_last_two in Hs.
    clear - Hs. vm_compute in Hs. discriminate Hs.
Qed.

(** ** Printing and reading an [int] *)

Lemma is_plain_not c x :
  is_plain c = true -> is_plain x = false -> Ascii.eqb c x = false.
Proof.
  intros Hc Hx. destruct (Ascii.eqb_spec c x) as [->|]; [congruence|reflexivity].
Qed.

Lemma is_plain_facts c :
  is_plain c = true ->
  Ascii.eqb c comma = false /\ Ascii.eqb c backslash = false /\
  Ascii.eqb c LF = false /\ is_trim c = false /\ isspace c = false /\
  Ascii.eqb c "+" = false.
Proof.
  intros H.
  assert (forall x, is_plain x = false -> Ascii.eqb c x = false) as Hn
    by (intros x; now apply is_plain_not).
  unfold is_trim, isspace, mem_char, trim_set. simpl.
  rewrite !Hn by reflexivity. repeat split.
Qed.

Lemma digit_char_ok d :
  0 <= d < 10 -> isdigit (digit_char d) = true /\ digit_val (digit_char d) = d.
Proof.
  intros H.
  assert (d = 0 \/ d = 1 \/ d = 2 \/ d = 3 \/ d = 4 \/ d = 5 \/ d = 6 \/
          d = 7 \/ d = 8 \/ d = 9) as E by lia.
  repeat (destruct E as [->|E]; [now vm_compute|]). subst. now vm_compute.
Qed.

Lemma digits_value_app ds : forall a c rest,
  digits_value a ((ds ++ [c]) ++ rest) = digits_value a (ds ++ c :: rest).
Proof. intros. now rewrite <- app_assoc. Qed.

Lemma print_digits_spec fuel : forall n acc,
  (0 < fuel)%nat ->
  0 <= n < 10 ^ Z.of_nat fuel ->
  exists ds,
    print_digits fuel n acc = ds ++ acc /\ ds <> [] /\
    Forall (fun c => isdigit c = true) ds /\
    forall a rest,
      digits_value a (ds ++ rest)
      = digits_value (a * 10 ^ Z.of_nat (List.length ds) + n) rest.
Proof.
  induction fuel as [|f IH]; intros n acc Hf Hn; [lia|].
  cbn [print_digits].
  - idtac.
    assert (Hm : 0 <= n mod 10 < 10) by (apply Z.mod_pos_bound; lia).
    destruct (digit_char_ok _ Hm) as [Hd Hv].
    destruct (Z.eqb_spec (n / 10) 0) as [E|E].
    + exists [digit_char (n mod 10)]. repeat split.
      * discriminate.
      * repeat constructor. exact Hd.
      * intros a rest. cbn [app digits_value List.length].
        rewrite Hd, Hv. f_equal. change (10 ^ Z.of_nat 1) with 10.
        pose proof (Z.div_mod n 10). lia.
    + assert (Hq : 0 <= n / 10 < 10 ^ Z.of_nat f).
      { split; [apply Z.div_pos; lia|].
        apply Z.div_lt_upper_bound; [lia|].
        rewrite Nat2Z.inj_succ, Z.pow_succ_r in Hn by lia. lia. }
      assert (Hf' : (0 < f)%nat).
      { destruct f; [|lia]. simpl in Hq. lia. }
      destruct (IH (n / 10) (digit_char (n mod 10) :: acc) Hf' Hq)
        as (ds & Hp & Hne & Hall & Hval).
      exists (ds ++ [digit_char (n mod 10)]). repeat split.
      * rewrite Hp, <- app_assoc. reflexivity.
      * destruct ds; discriminate.
      * apply Forall_app. split; [exact Hall|]. repeat constructor. exact Hd.
      * intros a rest. rewrite digits_value_app, Hval.
        cbn [digits_value]. rewrite Hd, Hv. f_equal.
        rewrite length_app. cbn [List.length].
        rewrite Nat2Z.inj_add, Z.pow_add_r by lia.
        change (10 ^ Z.of_nat 1) with 10.
        set (P := 10 ^ Z.of_nat (List.length ds)).
        pose proof (Z.div_mod n 10). lia.
Qed.

Lemma print_nat_spec n :
  0 <= n ->
  print_nat n <> [] /\
  Forall (fun c => isdigit c = true) (print_nat n) /\
  forall a rest,
    digits_value a (print_nat n ++ rest)
    = digits_value (a * 10 ^ Z.of_nat (List.length (print_nat n)) + n) rest.
Proof.
  intros Hn. unfold print_nat.
  destruct (print_digits_spec (S (Z.to_nat (Z.log2 n))) n [])
    as (ds & Hp & Hne & Hall & Hval).
  - lia.
  - split; [exact Hn|].
    rewrite Nat2Z.inj_succ, Z2Nat.id by apply Z.log2_nonneg.
    destruct (Z.eq_dec n 0) as [->|Hz]; [now vm_compute|].
    pose proof (Z.log2_spec n ltac:(lia)) as [_ Hlt].
    apply Z.lt_le_trans with (1 := Hlt).
    apply Z.pow_le_mono_l. pose proof (Z.log2_nonneg n). lia.
  - rewrite app_nil_r in Hp. rewrite Hp. auto.
Qed.

Lemma print_int_plain z : Forall (fun c => is_plain c = true) (print_int z).
Proof.
  unfold print_int.
  assert (H : forall n, 0 <= n ->
            Forall (fun c => is_plain c = true) (print_nat n)).
  { intros n Hn. destruct (print_nat_spec n Hn) as (_ & Hall & _).
    eapply Forall_impl; [|exact Hall]. intros c Hc. unfold is_plain.
    now rewrite Hc. }
  destruct (Z.ltb_spec z 0).
  - constructor; [reflexivity|]. apply H. lia.
  - apply H. lia.
Qed.

Lemma print_int_nonempty z : print_int z <> [].
Proof.
  unfold print_int. destruct (Z.ltb_spec z 0); [discriminate|].
  apply print_nat_spec. lia.
Qed.

(** [stoi] reads back what [operator<<] wrote, and refuses it when the
    number is not an [int]. *)
Lemma stoi_print_int_gen z :
  stoi (print_int z) = if in_int z then Some z else None.
Proof.
  unfold print_int, stoi.
  destruct (Z.ltb_spec z 0) as [Hneg|Hpos].
  - destruct (print_nat_spec (- z) ltac:(lia)) as (Hne & Hall & Hval).
    cbn [skip_space]. change (isspace "-") with false. cbv iota.
    change (Ascii.eqb "-" "-") with true. cbv iota beta.
    destruct (print_nat (- z)) as [|c ds] eqn:E; [congruence|].
    inversion Hall as [|? ? Hc _]; subst. rewrite Hc.
    specialize (Hval 0 []). rewrite app_nil_r in Hval. rewrite Hval.
    cbn [digits_value]. replace (- (0 * _ + - z)) with z by lia.
    reflexivity.
  - destruct (print_nat_spec z Hpos) as (Hne & Hall & Hval).
    destruct (print_nat z) as [|c ds] eqn:E; [congruence|].
    inversion Hall as [|? ? Hc _]; subst.
    assert (Hp : is_plain c = true) by (unfold is_plain; now rewrite Hc).
    destruct (is_plain_facts c Hp) as (_ & _ & _ & _ & Hsp & Hplus).
    cbn [skip_space]. rewrite Hsp.
    assert (Hm : Ascii.eqb c "-" = false).
    { destruct (Ascii.eqb_spec c "-") as [->|]; [discriminate Hc|reflexivity]. }
    rewrite Hm, Hplus, Hc.
    specialize (Hval 0 []). rewrite app_nil_r in Hval. rewrite Hval.
    cbn [digits_value]. replace (0 * _ + z) with z by lia.
    reflexivity.
Qed.

Lemma stoi_print_int z : in_int z = true -> stoi (print_int z) = Some z.
Proof. intros H. now rewrite stoi_print_int_gen, H. Qed.

(** ** The field splitter *)

Lemma split_loop_plain d : forall r parts cur,
  Forall (fun c => is_plain c = true) d ->
  split_loop (d ++ r) parts cur false = split_loop r parts (cur ++ d) false.
Proof.
  induction d as [|c d IH]; intros r parts cur H; simpl.
  - now rewrite app_nil_r.
  - inversion H as [|? ? Hc Hd]; subst.
    destruct (is_plain_facts c Hc) as (Hcomma & Hbs & _).
    rewrite Hbs, Hcomma, IH by exact Hd. now rewrite <- app_assoc.
Qed.

Lemma split_loop_comma r parts cur :
  split_loop (comma :: r) parts cur false
  = split_loop r (parts ++ [cur]) [] false.
Proof. reflexivity. Qed.

(** The loop only appends to [parts], and appends at least [current]. *)
Lemma split_loop_extends line : forall parts cur esc,
  exists p more, split_loop line parts cur esc = parts ++ p :: more.
Proof.
  induction line as [|c r IH]; intros parts cur esc; simpl.
  - exists cur, []. reflexivity.
  - destruct esc; [apply IH|].
    destruct (Ascii.eqb c backslash); [apply IH|].
    destruct (Ascii.eqb c comma); [|apply IH].
    destruct (IH (parts ++ [cur]) [] false) as (p & more & E).
    exists cur, (p :: more). rewrite E, <- app_assoc. reflexivity.
Qed.

(** ** Parsing one line *)

Lemma fromCsv_fields line p0 p1 p2 p3 more :
  split_fields line = p0 :: p1 :: p2 :: p3 :: more ->
  fromCsv line =
    match stoi p0, stoi p1 with
    | Some i, Some c =>
        Some (mkTask i (unescapeCommas p2) (unescapeCommas p3) (negb (c =? 0)))
    | _, _ => None
    end.
Proof.
  intros E. unfold fromCsv. rewrite E. cbn [List.length Nat.ltb Nat.leb nth].
  destruct (stoi p0); [|reflexivity]. destruct (stoi p1); reflexivity.
Qed.

Lemma fromCsv_short line :
  (List.length (split_fields line) < 4)%nat -> fromCsv line = None.
Proof.
  intros H. unfold fromCsv.
  destruct (Nat.ltb_spec (List.length (split_fields line)) 4); [reflexivity|lia].
Qed.

Lemma four_fields (parts : list str) :
  (4 <= List.length parts)%nat ->
  exists p0 p1 p2 p3 more, parts = p0 :: p1 :: p2 :: p3 :: more.
Proof.
  destruct parts as [|p0 [|p1 [|p2 [|p3 more]]]]; simpl; try lia.
  intros _. now exists p0, p1, p2, p3, more.
Qed.

(** ** The load loop *)

Lemma fromCsv_nil : fromCsv [] = None.
Proof. reflexivity. Qed.

Lemma load_loop_spec lines : forall ts maxSeen,
  load_loop lines ts maxSeen
  = (ts ++ loaded lines, fold_left bump (loaded lines) maxSeen).
Proof.
  induction lines as [|l rest IH]; intros ts mx; cbn [load_loop loaded flat_map].
  - now rewrite app_nil_r.
  - fold (loaded rest). unfold accept.
    destruct (trim l) as [|c r] eqn:E.
    + rewrite fromCsv_nil. apply IH.
    + destruct (fromCsv (c :: r)) as [t|].
      * rewrite IH, <- app_assoc. reflexivity.
      * apply IH.
Qed.

Lemma load_opened fs m text :
  contents fs (savePath m) = Some text ->
  load fs m =
    (true,
     mkManager (loaded (getlines text))
               (wrap_int (fold_left bump (loaded (getlines text)) 0 + 1))
               (savePath m)).
Proof. intros E. unfold load. now rewrite E, load_loop_spec. Qed.

Lemma loaded_app l1 l2 : loaded (l1 ++ l2) = loaded l1 ++ loaded l2.
Proof. apply flat_map_app. Qed.

Lemma fold_bump_ge l : forall mx, mx <= fold_left bump l mx.
Proof.
  induction l as [|t l IH]; intros mx; simpl; [lia|].
  specialize (IH (bump mx t)). unfold bump in *.
  destruct (Z.gtb_spec (getId t) mx); lia.
Qed.

Lemma fold_bump_upper l : forall mx i,
  In i (ids l) -> i <= fold_left bump l mx.
Proof.
  induction l as [|t l IH]; intros mx i; simpl; [tauto|].
  intros [<-|Hin]; [|now apply IH].
  pose proof (fold_bump_ge l (bump mx t)). unfold bump in *.
  destruct (Z.gtb_spec (getId t) mx); lia.
Qed.

Lemma fold_bump_attained l : forall mx,
  fold_left bump l mx = mx \/ In (fold_left bump l mx) (ids l).
Proof.
  induction l as [|t l IH]; intros mx; simpl; [now left|].
  destruct (IH (bump mx t)) as [E|Hin]; [|tauto].
  rewrite E. unfold bump. destruct (Z.gtb_spec (getId t) mx); auto.
Qed.

(** [stoi] only returns values of type [int]. *)
Lemma stoi_in_int s v : stoi s = Some v -> INT_MIN <= v <= INT_MAX.
Proof.
  unfold stoi.
  destruct (match skip_space s with
            | [] => (false, skip_space s)
            | c :: r =>
                if Ascii.eqb c "-" then (true, r)
                else if Ascii.eqb c "+" then (false, r)
                else (false, skip_space s)
            end) as [neg s2].
  destruct s2 as [|c r]; [discriminate|].
  destruct (isdigit c); [|discriminate].
  destruct (in_int _) eqn:E; [|discriminate].
  intros H. injection H as <-. now apply in_int_spec.
Qed.

Lemma fromCsv_id_in_int line t :
  fromCsv line = Some t -> INT_MIN <= getId t <= INT_MAX.
Proof.
  unfold fromCsv. destruct (_ <? _)%nat; [discriminate|].
  destruct (stoi (nth 0 _ _)) as [i|] eqn:E; [|discriminate].
  destruct (stoi (nth 1 _ _)); [|discriminate].
  intros H. injection H as <-. simpl. eapply stoi_in_int, E.
Qed.

Lemma loaded_in_int lines i :
  In i (ids (loaded lines)) -> INT_MIN <= i <= INT_MAX.
Proof.
  unfold ids, loaded. rewrite in_map_iff. intros (t & <- & Ht).
  apply in_flat_map in Ht. destruct Ht as (l & _ & Ht). unfold accept in Ht.
  destruct (fromCsv (trim l)) as [u|] eqn:E; [|contradiction].
  destruct Ht as [<-|[]]. eapply fromCsv_id_in_int, E.
Qed.

(** C10.  When the file opens and one of its lines has, after trimming,
    at least four fields of which [stoi] reads the first two as integers
    [i] and [c], [load] returns [true] and the task parsed from that line
    is in the store afterwards, whatever the integer [c] is: the line is
    loaded, not skipped, with [completed = true] when [c] is not 0 (2 and
    -1 included) and [completed = false] when [c] is 0. *)
Theorem load_completed_any_int
    (fs : FileSystem) (m : TaskManager) (text raw p0 p1 p2 p3 : str)
    (more : list str) (i c : Z) :
  contents fs (savePath m) = Some text ->
  In raw (getlines text) ->
  split_fields (trim raw) = p0 :: p1 :: p2 :: p3 :: more ->
  stoi p0 = Some i ->
  stoi p1 = Some c ->
  fromCsv (trim raw)
  = Some (mkTask i (unescapeCommas p2) (unescapeCommas p3) (negb (c =? 0)))
  /\ fst (load fs m) = true
  /\ In (mkTask i (unescapeCommas p2) (unescapeCommas p3) (negb (c =? 0)))
        (tasks (snd (load fs m)))
  /\ (c <> 0 ->
      In (mkTask i (unescapeCommas p2) (unescapeCommas p3) true)
         (tasks (snd (load fs m))))
  /\ (c = 0 ->
      In (mkTask i (unescapeCommas p2) (unescapeCommas p3) false)
         (tasks (snd (load fs m)))).
Proof.
  intros Hc Hraw E H0 H1.
  assert (Hf : fromCsv (trim raw)
               = Some (mkTask i (unescapeCommas p2) (unescapeCommas p3)
                              (negb (c =? 0)))).
  { now rewrite (fromCsv_fields _ _ _ _ _ _ E), H0, H1. }
  assert (Hin : In (mkTask i (unescapeCommas p2) (unescapeCommas p3)
                           (negb (c =? 0)))
                   (tasks (snd (load fs m)))).
  { rewrite (load_opened _ _ _ Hc). cbn [snd tasks]. unfold loaded.
    apply in_flat_map. exists raw. split; [exact Hraw|].
    unfold accept. rewrite Hf. now left. }
  split; [exact Hf|]. split; [now rewrite (load_opened _ _ _ Hc)|].
  split; [exact Hin|]. split.
  - intros Hn. destruct (Z.eqb_spec c 0); [contradiction|exact Hin].
  - intros ->. exact Hin.
Qed.

Lemma load_completed_any_int_witness :
  In (mkTask 7 (lit "a") (lit "b") true)
     (tasks (snd (load file_flags (newManager (lit "tasks.csv")))))
  /\ In (mkTask 8 (lit "c") (lit "d") true)
        (tasks (snd (load file_flags (newManager (lit "tasks.csv")))))
  /\ In (mkTask 9 (lit "e") (lit "f") false)
        (tasks (snd (load file_flags (newManager (lit "tasks.csv"))))).
Proof.
  split; [|split].
  - destruct (load_completed_any_int file_flags (newManager (lit "tasks.csv"))
                _ (lit "7,2,a,b") (lit "7") (lit "2") (lit "a") (lit "b") []
                7 2 eq_refl) as (_ & _ & H & _);
      [vm_compute; tauto|reflexivity|reflexivity|reflexivity|exact H].
  - destruct (load_completed_any_int file_flags (newManager (lit "tasks.csv"))
                _ (lit "8,-1,c,d") (lit "8") (lit "-1") (lit "c") (lit "d") []
                8 (-1) eq_refl) as (_ & _ & H & _);
      [vm_compute; tauto|reflexivity|reflexivity|reflexivity|exact H].
  - destruct (load_completed_any_int file_flags (newManager (lit "tasks.csv"))
                _ (lit "9,0,e,f") (lit "9") (lit "0") (lit "e") (lit "f") []
                9 0 eq_refl) as (_ & _ & H & _);
      [vm_compute; tauto|reflexivity|reflexivity|reflexivity|exact H].
Defined.

(** C4, as the code has it.  [fromCsv] accepts a line exactly when the
    splitter yields at least four fields (not exactly four: fields after
    the fourth are ignored) and [stoi] reads an [int] from the first and
    from the second field.  [load] decides each line on its own: the
    collection after a load that opened the file is the accepted lines in
    file order, so a refused line only drops itself and the lines before
    and after it are loaded as without it. *)
Theorem load_accepts_lines :
  (forall line,
     (exists t, fromCsv line = Some t) <->
     (4 <= List.length (split_fields line))%nat /\
     (exists i, stoi (nth 0 (split_fields line) []) = Some i) /\
     (exists c, stoi (nth 1 (split_fields line) []) = Some c))
  /\ (forall fs m text,
        contents fs (savePath m) = Some text ->
        fst (load fs m) = true /\
        tasks (snd (load fs m)) = flat_map accept (getlines text))
  /\ (forall before bad after,
        fromCsv (trim bad) = None ->
        loaded (before ++ bad :: after) = loaded before ++ loaded after).
Proof.
  split; [|split].
  - intros line. unfold fromCsv.
    destruct (Nat.ltb_spec (List.length (split_fields line)) 4) as [Hlt|Hge].
    + split; [intros [t H]; discriminate|intros [H _]; lia].
    + destruct (stoi (nth 0 (split_fields line) [])) as [i|].
      * destruct (stoi (nth 1 (split_fields line) [])) as [c|].
        -- split; eauto.
        -- split; [intros [t H]; discriminate|].
           intros (_ & _ & [c H]). discriminate.
      * split; [intros [t H]; discriminate|].
        intros (_ & [i H] & _). discriminate.
  - intros fs m text E. rewrite (load_opened _ _ _ E). split; reflexivity.
  - intros before bad after E. rewrite loaded_app.
    cbn [loaded flat_map]. unfold accept at 1. now rewrite E.
Qed.

Lemma load_accepts_lines_witness :
  tasks (snd (load (one_file (lit "tasks.csv")
                      (file_of [lit "1,0,a,b"; lit "x,0,c,d"; lit "2,1,e";
                                lit "3,1,f,g"]))
                   (newManager (lit "tasks.csv"))))
  = [mkTask 1 (lit "a") (lit "b") false; mkTask 3 (lit "f") (lit "g") true]
  /\ loaded ([lit "1,0,a,b"] ++ lit "2,1,e" :: [lit "3,1,f,g"])
     = loaded [lit "1,0,a,b"] ++ loaded [lit "3,1,f,g"].
Proof.
  split.
  - destruct (proj1 (proj2 load_accepts_lines)
                (one_file (lit "tasks.csv")
                   (file_of [lit "1,0,a,b"; lit "x,0,c,d"; lit "2,1,e";
                             lit "3,1,f,g"]))
                (newManager (lit "tasks.csv")) _ eq_refl) as [_ H].
    rewrite H. reflexivity.
  - apply (proj2 (proj2 load_accepts_lines)). reflexivity.
Defined.

(** C4 as stated fails: a line with five fields is accepted (the fifth
    field is dropped), and so is a line whose id and completed fields
    only start with digits. *)
Lemma five_fields_accepted :
  List.length (split_fields (lit "1,0,a,b,c")) = 5%nat /\
  fromCsv (lit "1,0,a,b,c") = Some (mkTask 1 (lit "a") (lit "b") false) /\
  fromCsv (lit "12abc,1x,t,n") = Some (mkTask 12 (lit "t") (lit "n") true) /\
  tasks (snd (load (one_file (lit "tasks.csv") (file_of [lit "1,0,a,b,c"]))
                   (newManager (lit "tasks.csv"))))
  = [mkTask 1 (lit "a") (lit "b") false].
Proof. repeat split. Qed.

(** A field of digits only is still refused when the number is not an
    [int], and white space and a sign before the digits are accepted. *)
Example stoi_examples :
  stoi (lit "99999999999") = None /\ stoi (lit "2147483648") = None /\
  stoi (lit "-2147483648") = Some (-2147483648) /\
  stoi (lit " +7") = Some 7 /\ stoi (lit "") = None /\
  stoi (lit "- 1") = None /\ stoi (lit "x1") = None.
Proof. repeat split. Qed.

(** ** [nextId] after a load *)

(** C6, as the code has it.  After a load that opened the file, [nextId]
    is one more than the largest id among the loaded tasks when that id is
    not negative (and below [INT_MAX], so that the [int] addition does not
    overflow), and 1 when no loaded task has a positive id, which covers
    the case that nothing was loaded: [maxSeen] starts at 0, not at the
    first id. *)
Theorem load_nextId (fs : FileSystem) (m : TaskManager) (text : str) :
  contents fs (savePath m) = Some text ->
  let m' := snd (load fs m) in
  fst (load fs m) = true
  /\ tasks m' = loaded (getlines text)
  /\ (forall M,
        In M (ids (tasks m')) ->
        (forall i, In i (ids (tasks m')) -> i <= M) ->
        0 <= M < INT_MAX ->
        nextId m' = M + 1)
  /\ ((forall i, In i (ids (tasks m')) -> i <= 0) -> nextId m' = 1).
Proof.
  intros E m'. subst m'. rewrite (load_opened _ _ _ E). cbn [fst snd tasks nextId].
  set (l := loaded (getlines text)).
  pose proof (fold_bump_ge l 0) as Hge.
  pose proof (fold_bump_attained l 0) as Hat.
  split; [reflexivity|]. split; [reflexivity|]. split.
  - intros M HM Hmax Hr.
    assert (fold_left bump l 0 = M) as ->.
    { pose proof (fold_bump_upper l 0 M HM).
      destruct Hat as [E0|Hin]; [lia|]. specialize (Hmax _ Hin). lia. }
    apply wrap_int_small. unfold INT_MIN, INT_MAX in *. lia.
  - intros Hneg.
    assert (fold_left bump l 0 = 0) as ->.
    { destruct Hat as [E0|Hin]; [exact E0|]. specialize (Hneg _ Hin). lia. }
    reflexivity.
Qed.

(** Ids 3, 7, 5 in the file: [nextId] is 8 and the next add returns 8. *)
Lemma load_nextId_witness :
  nextId (snd (load file_375 (newManager (lit "tasks.csv")))) = 7 + 1
  /\ fst (addTask (lit "t") []
            (snd (load file_375 (newManager (lit "tasks.csv"))))) = 8.
Proof.
  assert (H : nextId (snd (load file_375 (newManager (lit "tasks.csv"))))
              = 7 + 1).
  { destruct (load_nextId file_375 (newManager (lit "tasks.csv")) _ eq_refl)
      as (_ & _ & H & _).
    apply (H 7).
    - vm_compute. tauto.
    - vm_compute. intros i [<-|[<-|[<-|[]]]]; discriminate.
    - split; [lia|reflexivity]. }
  split; [exact H|]. rewrite addTask_eq. cbn [fst]. exact H.
Defined.

(** C6 as stated fails: a file whose only task has id -5 is loaded, its
    largest id is -5, and [nextId] is 1, not -4. *)
Lemma load_negative_id_nextId :
  let m' := snd (load (one_file (lit "tasks.csv") (file_of [lit "-5,0,a,b"]))
                      (newManager (lit "tasks.csv"))) in
  tasks m' = [mkTask (-5) (lit "a") (lit "b") false]
  /\ nextId m' = 1
  /\ nextId m' <> -5 + 1.
Proof. cbv zeta. repeat split. discriminate. Qed.

(** ** Save, then load *)

Lemma field_char_facts c :
  field_char c = true ->
  Ascii.eqb c backslash = false /\ Ascii.eqb c LF = false /\
  Ascii.eqb c CR = false.
Proof.
  unfold field_char. rewrite negb_true_iff, !orb_false_iff. tauto.
Qed.

Lemma split_loop_escaped t : forall r parts cur,
  field_ok t = true ->
  split_loop (escapeCommas t ++ r) parts cur false
  = split_loop r parts (cur ++ t) false.
Proof.
  induction t as [|c t IH]; intros r parts cur H; cbn [escapeCommas app].
  - now rewrite app_nil_r.
  - cbn [field_ok forallb] in H. apply andb_true_iff in H as [Hc Ht].
    destruct (field_char_facts c Hc) as (Hbs & Hlf & Hcr).
    replace (cur ++ c :: t) with ((cur ++ [c]) ++ t)
      by now rewrite <- app_assoc.
    destruct (Ascii.eqb_spec c comma) as [->|Hn].
    + cbn [app split_loop]. change (Ascii.eqb backslash backslash) with true.
      cbv iota. now apply IH.
    + rewrite Hlf, Hcr. cbn [orb app split_loop]. rewrite Hbs.
      destruct (Ascii.eqb_spec c comma); [contradiction|]. now apply IH.
Qed.

Lemma unescapeCommas_plain s : field_ok s = true -> unescapeCommas s = s.
Proof.
  induction s as [|c r IH]; [reflexivity|]. intros H.
  cbn [field_ok forallb] in H. apply andb_true_iff in H as [Hc Hr].
  destruct (field_char_facts c Hc) as (Hbs & _).
  cbn [unescapeCommas]. rewrite Hbs. cbn [andb].
  destruct r; [reflexivity|]. f_equal. now apply IH.
Qed.

Lemma toCsv_eq t :
  toCsv t = print_int (getId t) ++ comma :: flag_text (isCompleted t)
            ++ comma :: escapeCommas (getTitle t)
            ++ comma :: escapeCommas (getNotes t).
Proof. reflexivity. Qed.

Lemma split_fields_toCsv t :
  field_ok (getTitle t) = true -> field_ok (getNotes t) = true ->
  split_fields (toCsv t)
  = [print_int (getId t); flag_text (isCompleted t); getTitle t; getNotes t].
Proof.
  intros Ht Hn. unfold split_fields. rewrite toCsv_eq.
  rewrite split_loop_plain by apply print_int_plain.
  rewrite split_loop_comma.
  rewrite split_loop_plain by (unfold flag_text; destruct (isCompleted t);
                               apply print_int_plain).
  rewrite split_loop_comma.
  rewrite split_loop_escaped by exact Ht.
  rewrite split_loop_comma.
  rewrite <- (app_nil_r (escapeCommas (getNotes t))).
  rewrite split_loop_escaped by exact Hn.
  reflexivity.
Qed.

(** [fromCsv] undoes [toCsv] on a task whose id is an [int] and whose
    title and notes hold no backslash and no line break. *)
Lemma fromCsv_toCsv t :
  in_int (getId t) = true ->
  field_ok (getTitle t) = true -> field_ok (getNotes t) = true ->
  fromCsv (toCsv t) = Some t.
Proof.
  intros Hi Ht Hn.
  rewrite (fromCsv_fields _ _ _ _ _ _ (split_fields_toCsv t Ht Hn)).
  rewrite (stoi_print_int _ Hi), !unescapeCommas_plain by assumption.
  destruct t as [i ti no b]. destruct b; reflexivity.
Qed.

(** *** The saved line is one line, and [trim] keeps it *)

Lemma escapeCommas_no_LF s :
  Forall (fun c => Ascii.eqb c LF = false) (escapeCommas s).
Proof.
  induction s as [|c r IH]; cbn [escapeCommas]; [constructor|].
  destruct (Ascii.eqb_spec c comma) as [->|Hn].
  - repeat constructor. exact IH.
  - destruct (Ascii.eqb c LF) eqn:E; cbn [orb].
    + constructor; [reflexivity|exact IH].
    + destruct (Ascii.eqb c CR); constructor; auto.
Qed.

Lemma plain_no_LF s :
  Forall (fun c => is_plain c = true) s ->
  Forall (fun c => Ascii.eqb c LF = false) s.
Proof.
  apply Forall_impl. intros c H. now apply is_plain_facts.
Qed.

Lemma toCsv_no_LF t : Forall (fun c => Ascii.eqb c LF = false) (toCsv t).
Proof.
  rewrite toCsv_eq.
  repeat first [apply Forall_app; split | apply Forall_cons];
    try reflexivity;
    try apply escapeCommas_no_LF;
    try (apply plain_no_LF; unfold flag_text;
         try destruct (isCompleted t); apply print_int_plain).
Qed.

Lemma getlines_from_line l : forall r cur,
  Forall (fun c => Ascii.eqb c LF = false) l ->
  getlines_from (l ++ LF :: r) cur = (cur ++ l) :: getlines_from r [].
Proof.
  induction l as [|c l IH]; intros r cur H; cbn [app getlines_from].
  - change (Ascii.eqb LF LF) with true. cbv iota. now rewrite app_nil_r.
  - inversion H as [|? ? Hc Hl]; subst. rewrite Hc, IH by exact Hl.
    now rewrite <- app_assoc.
Qed.

(** [std::getline] gives back the lines [save] wrote. *)
Lemma getlines_save_text ts : getlines (save_text ts) = map toCsv ts.
Proof.
  unfold getlines, save_text.
  induction ts as [|t ts IH]; [reflexivity|].
  cbn [map concat]. rewrite <- app_assoc. cbn [app].
  rewrite getlines_from_line by apply toCsv_no_LF. now rewrite IH.
Qed.

Lemma rtrim_tight s c : is_trim c = false -> rtrim (s ++ [c]) = s ++ [c].
Proof. intros H. now rewrite rtrim_app_tight. Qed.

Lemma escapeCommas_app a b :
  escapeCommas (a ++ b) = escapeCommas a ++ escapeCommas b.
Proof.
  induction a as [|c a IH]; [reflexivity|]. cbn [app escapeCommas].
  rewrite IH. destruct (Ascii.eqb c comma); [reflexivity|].
  destruct (Ascii.eqb c LF || Ascii.eqb c CR); reflexivity.
Qed.

(** After [escapeCommas], text that does not end in a trimmed character
    still does not. *)
Lemma escapeCommas_end s :
  s <> [] -> no_trailing_ws s = true ->
  exists y d, escapeCommas s = y ++ [d] /\ is_trim d = false.
Proof.
  intros Hne H. unfold no_trailing_ws in H. apply negb_true_iff in H.
  rewrite (app_removelast_last "x" Hne), escapeCommas_app.
  set (d := last s "x") in *. cbn [escapeCommas].
  destruct (Ascii.eqb_spec d comma) as [E|E].
  - exists (escapeCommas (removelast s) ++ [backslash]), comma.
    rewrite <- app_assoc. auto.
  - assert (Ascii.eqb d LF || Ascii.eqb d CR = false) as ->.
    { destruct (Ascii.eqb_spec d LF) as [->|]; [discriminate H|].
      destruct (Ascii.eqb_spec d CR) as [->|]; [discriminate H|reflexivity]. }
    exists (escapeCommas (removelast s)), d. auto.
Qed.

Lemma trim_plain_head c r :
  is_plain c = true -> trim (c :: r) = c :: rtrim r.
Proof. intros H. apply trim_cons_nws. now apply is_plain_facts. Qed.

Lemma trim_toCsv t : no_trailing_ws (getNotes t) = true -> trim (toCsv t) = toCsv t.
Proof.
  intros H.
  assert (Hend : exists y d, toCsv t = y ++ [d] /\ is_trim d = false).
  { rewrite toCsv_eq. destruct (getNotes t) as [|n ns] eqn:En.
    - exists (print_int (getId t) ++ comma :: flag_text (isCompleted t)
              ++ comma :: escapeCommas (getTitle t)), comma.
      cbn [escapeCommas]. rewrite <- !app_assoc. cbn [app].
      rewrite <- !app_assoc. auto.
    - destruct (escapeCommas_end (n :: ns) ltac:(discriminate) H)
        as (y & d & -> & Hd).
      exists (print_int (getId t) ++ comma :: flag_text (isCompleted t)
              ++ comma :: escapeCommas (getTitle t) ++ comma :: y), d.
      rewrite <- !app_assoc. cbn [app]. rewrite <- !app_assoc. cbn [app].
      rewrite <- !app_assoc. auto. }
  destruct Hend as (y & d & E & Hd).
  pose proof (print_int_plain (getId t)) as Hp.
  pose proof (print_int_nonempty (getId t)) as Hne.
  assert (Hhead : exists c r, toCsv t = c :: r /\ is_plain c = true).
  { rewrite toCsv_eq. destruct (print_int (getId t)) as [|c r]; [congruence|].
    inversion Hp; subst. eexists _, _. split; [reflexivity|assumption]. }
  destruct Hhead as (c & r & E' & Hc).
  assert (Hr : rtrim (toCsv t) = toCsv t).
  { rewrite E. apply rtrim_tight, Hd. }
  rewrite E' in *. rewrite trim_plain_head by exact Hc.
  rewrite rtrim_cons in Hr by now apply is_plain_facts. exact Hr.
Qed.

Lemma accept_toCsv t : task_ok t = true -> accept (toCsv t) = [t].
Proof.
  unfold task_ok. rewrite !andb_true_iff. intros [[[Hi Ht] Hn] Hw].
  unfold accept. now rewrite trim_toCsv, fromCsv_toCsv.
Qed.

Lemma loaded_saved ts :
  Forall (fun t => task_ok t = true) ts -> loaded (map toCsv ts) = ts.
Proof.
  induction 1 as [|t ts Ht _ IH]; [reflexivity|].
  cbn [map loaded flat_map]. fold (loaded (map toCsv ts)).
  now rewrite accept_toCsv, IH.
Qed.

Lemma str_eqb_refl p : str_eqb p p = true.
Proof. unfold str_eqb. destruct (list_eq_dec ascii_dec p p); congruence. Qed.

Lemma save_writable fs m :
  writable fs (savePath m) = true ->
  save fs m = (true, write_file fs (savePath m) (save_text (tasks m)))
  /\ contents (snd (save fs m)) (savePath m) = Some (save_text (tasks m)).
Proof.
  intros H. unfold save. rewrite H. split; [reflexivity|].
  cbn [snd write_file contents]. now rewrite str_eqb_refl.
Qed.

(** C2, as the code has it.  For a store whose tasks have titles and
    notes without line breaks and without backslashes, and notes that do
    not end in a character [trim] removes (space, tab), [save] followed
    by [load] into a fresh store yields the same tasks in the same order:
    same ids, titles, notes and completed flags; commas and empty notes
    are covered.  Line by line, [fromCsv] undoes [toCsv] on every task
    without backslash and line break. *)
Theorem save_load_roundtrip (fs : FileSystem) (m : TaskManager) :
  writable fs (savePath m) = true ->
  Forall (fun t => task_ok t = true) (tasks m) ->
  fst (save fs m) = true
  /\ fst (load (snd (save fs m)) (newManager (savePath m))) = true
  /\ tasks (snd (load (snd (save fs m)) (newManager (savePath m)))) = tasks m
  /\ (forall t, In t (tasks m) -> fromCsv (toCsv t) = Some t).
Proof.
  intros Hw Hok. destruct (save_writable fs m Hw) as [Hs Hc].
  split; [now rewrite Hs|].
  assert (Hl := load_opened (snd (save fs m)) (newManager (savePath m))
                  (save_text (tasks m)) Hc).
  rewrite Hl. cbn [fst snd tasks]. split; [reflexivity|]. split.
  - rewrite getlines_save_text. now apply loaded_saved.
  - intros t Ht. rewrite Forall_forall in Hok. specialize (Hok t Ht).
    unfold task_ok in Hok. rewrite !andb_true_iff in Hok.
    destruct Hok as [[[Hi Hti] Hn] _]. now apply fromCsv_toCsv.
Qed.

Lemma save_load_roundtrip_witness :
  tasks (snd (load (snd (save no_files comma_store))
                   (newManager (lit "tasks.csv"))))
  = [mkTask 1 (lit "Buy milk, eggs") [] true;
     mkTask 2 (lit "Walk dog") (lit "a, b") false].
Proof.
  destruct (save_load_roundtrip no_files comma_store) as (_ & _ & H & _).
  - reflexivity.
  - repeat constructor.
  - exact H.
Defined.

(** C2 as stated fails on printable text without line breaks.  A
    backslash in a title is dropped by the splitter, which takes every
    backslash as an escape while [escapeCommas] escapes commas only; a
    title ending in a backslash swallows the separator after it, so the
    line has three fields and the task is lost; and notes ending in a
    space come back without it, because [load] trims each line. *)
Lemma roundtrip_loses_text :
  let reload ts :=
    tasks (snd (load (snd (save no_files (mkManager ts 2 (lit "tasks.csv"))))
                     (newManager (lit "tasks.csv")))) in
  fromCsv (toCsv (mkTask 1 (lit "a\b") [] false))
    = Some (mkTask 1 (lit "ab") [] false)
  /\ reload [mkTask 1 (lit "a\b") [] false] = [mkTask 1 (lit "ab") [] false]
  /\ reload [mkTask 1 (lit "a\") (lit "n") false] = []
  /\ reload [mkTask 1 (lit "a") (lit "x ") false]
     = [mkTask 1 (lit "a") (lit "x") false]
  /\ reload [mkTask 1 (lit "a") (lit "x ") false]
     <> [mkTask 1 (lit "a") (lit "x ") false].
Proof. cbv zeta. repeat split. discriminate. Qed.

(** ** The id invariant *)

Lemma wrap_int_range z : INT_MIN <= wrap_int z <= INT_MAX.
Proof.
  unfold wrap_int, INT_MIN, INT_MAX.
  pose proof (Z.mod_pos_bound (z + 2 ^ 31) (2 ^ 32) ltac:(lia)). lia.
Qed.

Lemma trim_toCsv_shape t :
  exists x, trim (toCsv t) = print_int (getId t) ++ comma :: x.
Proof.
  rewrite toCsv_eq.
  pose proof (print_int_plain (getId t)) as Hp.
  pose proof (print_int_nonempty (getId t)) as Hne.
  destruct (print_int (getId t)) as [|c pr]; [congruence|].
  inversion Hp as [|? ? Hc _]; subst. cbn [app].
  rewrite trim_plain_head by exact Hc.
  rewrite rtrim_app_tight by reflexivity. eauto.
Qed.

Lemma fromCsv_id_prefix z x u :
  fromCsv (print_int z ++ comma :: x) = Some u -> getId u = z.
Proof.
  unfold fromCsv, split_fields.
  rewrite split_loop_plain by apply print_int_plain.
  rewrite split_loop_comma.
  match goal with
  | |- context [split_loop x ?ps [] false] =>
      destruct (split_loop_extends x ps [] false) as (p & more & ->)
  end.
  cbn [app nth]. destruct (_ <? _)%nat; [discriminate|].
  rewrite stoi_print_int_gen. destruct (in_int z); [|discriminate].
  destruct (stoi _); [|discriminate].
  intros H. injection H as <-. reflexivity.
Qed.

(** A saved line is read back with the id it was written with, or
    refused. *)
Lemma accept_saved_id t u : In u (accept (toCsv t)) -> getId u = getId t.
Proof.
  unfold accept. destruct (trim_toCsv_shape t) as [x ->].
  destruct (fromCsv _) as [v|] eqn:E; [|contradiction].
  intros [<-|[]]. eapply fromCsv_id_prefix, E.
Qed.

Lemma loaded_saved_ids ts i :
  In i (ids (loaded (map toCsv ts))) -> In i (ids ts).
Proof.
  unfold ids, loaded. rewrite !in_map_iff. intros (u & <- & Hu).
  apply in_flat_map in Hu. destruct Hu as (l & Hl & Hu).
  apply in_map_iff in Hl. destruct Hl as (t & <- & Ht).
  exists t. split; [|exact Ht]. symmetry. now apply accept_saved_id.
Qed.

Lemma loaded_saved_NoDup ts :
  NoDup (ids ts) -> NoDup (ids (loaded (map toCsv ts))).
Proof.
  induction ts as [|t ts IH]; intros H; [constructor|].
  inversion H as [|? ? Hnot Hrest]; subst.
  cbn [map loaded flat_map]. fold (loaded (map toCsv ts)).
  pose proof (accept_saved_id t) as Hid. unfold accept in *.
  destruct (fromCsv (trim (toCsv t))) as [u|]; [|now apply IH].
  cbn [app ids map]. constructor; [|now apply IH].
  rewrite (Hid u (or_introl eq_refl)). intros Hin.
  apply Hnot. now apply loaded_saved_ids.
Qed.

Lemma update_first_same_ids id f ts b ts' :
  (forall t, getId (f t) = getId t) ->
  update_first id f ts = (b, ts') -> ids ts' = ids ts.
Proof.
  intros Hf E. pose proof (update_first_ids id f ts Hf) as H.
  now rewrite E in H.
Qed.

Lemma edit_fields_id nt nn t : getId (edit_fields nt nn t) = getId t.
Proof. now rewrite edit_fields_eq. Qed.

Lemma step_state o m fs :
  snd (step o (m, fs)) =
  match o with
  | OpAdd title notes => (snd (addTask title notes m), fs)
  | OpRemove id => (snd (removeById id m), fs)
  | OpToggle id => (snd (toggleComplete id m), fs)
  | OpEdit id nt nn => (snd (editTask id nt nn m), fs)
  | OpClear => (snd (clearAll m), fs)
  | OpLoad => (snd (load fs m), fs)
  | OpSave => (m, snd (save fs m))
  end.
Proof.
  destruct o; cbn [step].
  - now destruct (addTask title notes m).
  - now destruct (removeById id m).
  - now destruct (toggleComplete id m).
  - now destruct (editTask id newTitle newNotes m).
  - reflexivity.
  - now destruct (load fs m).
  - now destruct (save fs m).
Qed.

Section IdInvariant.

(** The path the store was constructed with, and the file system it
    starts on. *)
Variable p : str.
Variable fs0 : FileSystem.
Hypothesis fs0_good : file_good fs0 p.

Lemma step_preserves_invariant o s :
  id_invariant p s -> no_overflow o s -> id_invariant p (snd (step o s)).
Proof.
  destruct s as [m fs]. unfold id_invariant. cbn [fst snd].
  intros (Hnd & Hlt & Hr & Hp & Hf) Hno.
  rewrite step_state.
  destruct o; cbn [no_overflow fst snd] in *.
  - (* addTask *)
    rewrite addTask_eq. cbn [fst snd tasks nextId savePath].
    rewrite wrap_int_small by (unfold INT_MIN, INT_MAX in *; lia).
    unfold ids in *. rewrite map_app. cbn [map getId].
    repeat split; try assumption; try lia.
    + apply NoDup_app; repeat split.
      * exact Hnd.
      * repeat constructor. simpl. tauto.
      * intros i Hi [<-|[]]. specialize (Hlt _ Hi). lia.
    + intros i Hi. apply in_app_or in Hi. destruct Hi as [Hi|[<-|[]]].
      * specialize (Hlt _ Hi). lia.
      * lia.
  - (* removeById *)
    unfold removeById.
    pose proof (remove_first_NoDup id m.(tasks) Hnd) as Hnd'.
    pose proof (remove_first_incl id m.(tasks)) as Hin.
    destruct (remove_first id (tasks m)) as [b ts'].
    cbn [fst snd tasks nextId savePath] in *.
    repeat split; try assumption; try lia.
    intros i Hi. apply Hlt. unfold ids in *. rewrite in_map_iff in *.
    destruct Hi as (t & <- & Ht). exists t. auto.
  - (* toggleComplete *)
    unfold toggleComplete.
    destruct (update_first id _ (tasks m)) as [b ts'] eqn:E.
    apply update_first_same_ids in E; [|reflexivity].
    cbn [fst snd tasks nextId savePath]. rewrite E.
    repeat split; try assumption; lia.
  - (* editTask *)
    unfold editTask.
    destruct (update_first id _ (tasks m)) as [b ts'] eqn:E.
    apply update_first_same_ids in E; [|apply edit_fields_id].
    cbn [fst snd tasks nextId savePath]. rewrite E.
    repeat split; try assumption; lia.
  - (* clearAll *)
    cbn [clearAll fst snd tasks nextId savePath ids map].
    repeat split; try assumption; try lia.
    + constructor.
    + intros i [].
  - (* load *)
    destruct (contents fs (savePath m)) as [text|] eqn:E.
    + rewrite (load_opened _ _ _ E). cbn [fst snd tasks nextId savePath].
      rewrite Hp in E. specialize (Hf _ E). rewrite <- Hp in E.
      specialize (Hno _ eq_refl). set (l := loaded (getlines text)) in *.
      pose proof (fold_bump_ge l 0) as Hge.
      assert (Hmax : fold_left bump l 0 < INT_MAX).
      { destruct (fold_bump_attained l 0) as [E0|Hin].
        - rewrite E0. reflexivity.
        - rewrite Forall_forall in Hno. now apply Hno. }
      rewrite wrap_int_small by (unfold INT_MIN, INT_MAX in *; lia).
      repeat split; try assumption; try (unfold INT_MIN in *; lia).
      * intros i Hi. pose proof (fold_bump_upper l 0 i Hi). lia.
      * intros text' E'. rewrite <- Hp in E'. rewrite E in E'.
        injection E' as <-. exact Hf.
    + unfold load. rewrite E. cbn [fst snd].
      repeat split; try assumption; lia.
  - (* save *)
    destruct (writable fs (savePath m)) eqn:Hw.
    + destruct (save_writable fs m Hw) as [Hs Hc].
      repeat split; try assumption; try lia.
      intros text E. rewrite <- Hp in E. rewrite Hc in E.
      injection E as <-. rewrite getlines_save_text.
      now apply loaded_saved_NoDup.
    + unfold save. rewrite Hw. cbn [fst snd].
      repeat split; try assumption; lia.
Qed.

(** C3, as the code has it.  Start from a fresh store whose file, if it
    can be opened, holds no two accepted lines with the same id (an absent
    file, and every file written by [save], is such a file).  Then after
    any sequence of add, remove, toggle, edit, clear, load and save whose
    [int] additions do not overflow, no two tasks of the store share an
    id. *)
Theorem ids_unique_when_file_good (s : System) :
  reachable (newManager p, fs0) s ->
  NoDup (ids (tasks (fst s))).
Proof.
  intros Hreach.
  assert (Hinv : id_invariant p s).
  { induction Hreach as [|s o _ IH Hno].
    - unfold id_invariant. cbn [fst snd newManager tasks nextId savePath].
      repeat split; try assumption; try (now vm_compute).
      constructor.
    - now apply step_preserves_invariant. }
  apply Hinv.
Qed.

End IdInvariant.

Lemma reachable_run s0 ops : forall s,
  reachable s0 s ->
  (fix safe (ops : list Op) (s : System) : Prop :=
     match ops with
     | [] => True
     | o :: rest => no_overflow o s /\ safe rest (snd (step o s))
     end) ops s ->
  reachable s0 (snd (run ops s)).
Proof.
  induction ops as [|o rest IH]; intros s Hr Hs; [exact Hr|].
  destruct Hs as [Ho Hrest]. cbn [run].
  specialize (IH (snd (step o s)) (reach_step s0 s o Hr Ho) Hrest).
  destruct (step o s) as [r s1]. cbn [snd] in *.
  destruct (run rest s1) as [rs s2]. exact IH.
Qed.

Lemma ids_unique_when_file_good_witness :
  NoDup (ids (tasks (fst (snd (run sample_run
                                 (newManager (lit "tasks.csv"), no_files)))))).
Proof.
  apply (ids_unique_when_file_good (lit "tasks.csv") no_files).
  - intros text E. discriminate E.
  - apply reachable_run; [constructor|].
    repeat split; try reflexivity.
    intros text E. vm_compute in E. injection E as <-.
    apply Forall_forall. intros i Hi. vm_compute in Hi.
    destruct Hi as [<-|[<-|[]]]; reflexivity.
Defined.

(** C3 as stated fails: [load] takes the ids as the file has them, so a
    file with two lines of id 1 gives a store with two tasks of id 1. *)
Lemma load_duplicate_ids :
  let s := snd (run [OpLoad]
                  (newManager (lit "tasks.csv"),
                   one_file (lit "tasks.csv")
                     (file_of [lit "1,0,a,b"; lit "1,1,c,d"]))) in
  tasks (fst s)
    = [mkTask 1 (lit "a") (lit "b") false; mkTask 1 (lit "c") (lit "d") true]
  /\ ~ NoDup (ids (tasks (fst s))).
Proof.
  cbv zeta. split; [reflexivity|].
  intros H. vm_compute in H. inversion H as [|? ? Hn _]. apply Hn. now left.
Qed.

(** * Further properties of the code *)

(** ** [trim] *)

Lemma ltrim_decomp s :
  exists w, s = w ++ ltrim s /\ forallb is_trim w = true.
Proof.
  induction s as [|c r (w & E & Hw)]; [now exists []|].
  cbn [ltrim]. destruct (is_trim c) eqn:Ec.
  - exists (c :: w). cbn [app forallb]. rewrite Ec, Hw.
    split; [f_equal; exact E|reflexivity].
  - now exists [].
Qed.

Lemma rtrim_decomp s :
  exists w, s = rtrim s ++ w /\ forallb is_trim w = true.
Proof.
  induction s as [|c r (w & E & Hw)]; [now exists []|].
  cbn [rtrim]. destruct (rtrim r) as [|x r'] eqn:Er.
  - simpl in E. subst r. destruct (is_trim c) eqn:Ec.
    + exists (c :: w). cbn [app forallb]. now rewrite Ec, Hw.
    + now exists w.
  - exists w. split; [|exact Hw]. cbn [app] in *. f_equal. exact E.
Qed.

Lemma rtrim_last s : is_trim (last (rtrim s) "x") = false.
Proof.
  induction s as [|c r IH]; [reflexivity|].
  cbn [rtrim]. destruct (rtrim r) as [|x r'] eqn:Er.
  - destruct (is_trim c) eqn:Ec; [reflexivity|exact Ec].
  - exact IH.
Qed.

Lemma rtrim_nil_iff s : rtrim s = [] <-> forallb is_trim s = true.
Proof.
  induction s as [|c r IH]; [easy|].
  cbn [rtrim forallb]. destruct (rtrim r) as [|x r'] eqn:Er.
  - destruct (is_trim c); cbn [andb].
    + split; [intros _; now apply IH|reflexivity].
    + split; discriminate.
  - split; [discriminate|]. intros H. apply andb_true_iff in H as [_ H].
    apply IH in H. discriminate.
Qed.

Lemma ltrim_nil_iff s : ltrim s = [] <-> forallb is_trim s = true.
Proof.
  induction s as [|c r IH]; [easy|].
  cbn [ltrim forallb]. destruct (is_trim c); cbn [andb]; [exact IH|].
  split; discriminate.
Qed.

Lemma trim_nil_iff s : trim s = [] <-> forallb is_trim s = true.
Proof.
  rewrite trim_ltrim_rtrim, <- ltrim_nil_iff.
  pose proof (ltrim_head s) as H. destruct (ltrim s) as [|c r]; [easy|].
  rewrite rtrim_cons by exact H. split; discriminate.
Qed.

(** X1.  [trim] cuts characters of [" \t\r\n"] off both ends and nothing
    else: the argument is a run of such characters, then the result, then
    another run of them, and the result neither starts nor ends with one
    of them. *)
Theorem trim_strips_both_ends (s : str) :
  exists w1 w2,
    s = w1 ++ trim s ++ w2
    /\ forallb is_trim w1 = true
    /\ forallb is_trim w2 = true
    /\ is_trim (hd "x" (trim s)) = false
    /\ is_trim (last (trim s) "x") = false.
Proof.
  destruct (ltrim_decomp s) as (w1 & E1 & H1).
  destruct (rtrim_decomp (ltrim s)) as (w2 & E2 & H2).
  exists w1, w2. rewrite trim_ltrim_rtrim.
  split; [now rewrite <- E2|]. split; [exact H1|]. split; [exact H2|].
  split; [|apply rtrim_last].
  pose proof (trim_head s) as Hh. rewrite trim_ltrim_rtrim in Hh.
  destruct (rtrim (ltrim s)); [reflexivity|exact Hh].
Qed.

(** X2.  [trim] returns the empty string exactly for strings made of
    [" \t\r\n"] characters only (the empty string included), and trimming
    twice is the same as trimming once. *)
Theorem trim_empty_iff_blank (s : str) :
  (trim s = [] <-> forallb is_trim s = true)
  /\ trim (trim s) = trim s.
Proof. split; [apply trim_nil_iff|apply trim_idem]. Qed.

Lemma trim_empty_iff_blank_witness :
  trim [space; tab; CR; LF] = []
  /\ forallb is_trim (lit " a ") = false.
Proof.
  split.
  - apply (proj1 (trim_empty_iff_blank [space; tab; CR; LF])). reflexivity.
  - destruct (forallb is_trim (lit " a ")) eqn:E; [|reflexivity].
    apply (proj1 (trim_empty_iff_blank (lit " a "))) in E. discriminate E.
Defined.

(** ** Remove *)

Lemma remove_first_absent id ts :
  ~ In id (ids ts) -> remove_first id ts = (false, ts).
Proof.
  induction ts as [|t r IH]; simpl; intros H; [reflexivity|].
  destruct (Z.eqb_spec (getId t) id) as [E|E]; [tauto|].
  rewrite IH by tauto. reflexivity.
Qed.

Lemma remove_first_split id l1 t l2 :
  ~ In id (ids l1) -> getId t = id ->
  remove_first id (l1 ++ t :: l2) = (true, l1 ++ l2).
Proof.
  intros H1 Ht. induction l1 as [|u r IH]; simpl in *.
  - rewrite Ht, Z.eqb_refl. reflexivity.
  - destruct (Z.eqb_spec (getId u) id) as [E|E]; [tauto|].
    rewrite IH by tauto. reflexivity.
Qed.

(** X3.  [removeById] erases the first task with the id and returns
    [true]; the tasks before and after it keep their order and content and
    [nextId] stays.  When no task has the id it returns [false] and the
    store is unchanged. *)
Theorem removeById_spec (m : TaskManager) (id : Z) :
  (forall l1 t l2,
     tasks m = l1 ++ t :: l2 -> getId t = id -> ~ In id (ids l1) ->
     removeById id m = (true, mkManager (l1 ++ l2) (nextId m) (savePath m)))
  /\ (In id (ids (tasks m)) -> fst (removeById id m) = true)
  /\ (~ In id (ids (tasks m)) -> removeById id m = (false, m)).
Proof.
  assert (Hgen : forall l1 t l2,
     tasks m = l1 ++ t :: l2 -> getId t = id -> ~ In id (ids l1) ->
     removeById id m = (true, mkManager (l1 ++ l2) (nextId m) (savePath m))).
  { intros l1 t l2 E Ht Hn. unfold removeById.
    now rewrite E, (remove_first_split _ _ _ _ Hn Ht). }
  split; [exact Hgen|]. split.
  - intros Hin.
    destruct (first_with_id id (tasks m) Hin) as (l1 & t & l2 & E & Ht & Hn).
    now rewrite (Hgen l1 t l2 E Ht Hn).
  - intros Hn. unfold removeById. rewrite (remove_first_absent _ _ Hn).
    now destruct m.
Qed.

Lemma removeById_spec_witness :
  removeById 1 sample_store =
    (true, mkManager [mkTask 2 (lit "Walk dog") [] true] 3 (lit "tasks.csv"))
  /\ fst (removeById 2 sample_store) = true
  /\ removeById 7 sample_store = (false, sample_store).
Proof.
  split; [|split].
  - apply (proj1 (removeById_spec sample_store 1) []
             (mkTask 1 (lit "Buy milk") (lit "2%") false)
             [mkTask 2 (lit "Walk dog") [] true]).
    + reflexivity.
    + reflexivity.
    + simpl. tauto.
  - apply (proj1 (proj2 (removeById_spec sample_store 2))). simpl. tauto.
  - apply (proj2 (proj2 (removeById_spec sample_store 7))).
    simpl. intros [H|[H|[]]]; discriminate H.
Defined.

(** X4.  In a store without duplicate ids, a successful [removeById]
    leaves no task with that id, so a second [removeById] with the same id
    returns [false] and changes nothing. *)
Theorem removeById_twice (m : TaskManager) (id : Z) :
  NoDup (ids (tasks m)) ->
  In id (ids (tasks m)) ->
  fst (removeById id m) = true
  /\ ~ In id (ids (tasks (snd (removeById id m))))
  /\ removeById id (snd (removeById id m)) = (false, snd (removeById id m)).
Proof.
  intros Hnd Hin.
  destruct (first_with_id id (tasks m) Hin) as (l1 & t & l2 & E & Ht & Hn).
  assert (Hr : removeById id m
               = (true, mkManager (l1 ++ l2) (nextId m) (savePath m))).
  { unfold removeById. now rewrite E, (remove_first_split _ _ _ _ Hn Ht). }
  rewrite Hr. cbn [fst snd tasks].
  assert (Hout : ~ In id (ids (l1 ++ l2))).
  { rewrite E in Hnd. unfold ids in *. rewrite map_app in *.
    cbn [map] in Hnd. apply NoDup_remove_2 in Hnd. now rewrite Ht in Hnd. }
  split; [reflexivity|]. split; [exact Hout|].
  unfold removeById. cbn [tasks]. now rewrite (remove_first_absent _ _ Hout).
Qed.

Lemma removeById_twice_witness :
  fst (removeById 1 sample_store) = true
  /\ ~ In 1 (ids (tasks (snd (removeById 1 sample_store))))
  /\ removeById 1 (snd (removeById 1 sample_store))
     = (false, snd (removeById 1 sample_store)).
Proof.
  apply (removeById_twice sample_store 1).
  - repeat constructor; simpl; intros H; repeat destruct H as [H|H];
      try discriminate H; exact H.
  - simpl. tauto.
Defined.

(** With two tasks of the same id the second call removes the other
    one. *)
Example removeById_twice_duplicates :
  let m := mkManager [mkTask 1 (lit "a") [] false; mkTask 1 (lit "b") [] false]
                     2 (lit "tasks.csv") in
  removeById 1 (snd (removeById 1 m)) = (true, mkManager [] 2 (lit "tasks.csv")).
Proof. reflexivity. Qed.

(** ** What toggle and edit keep *)

(** X5.  [toggleComplete] and [editTask] never add, drop or reorder
    tasks and never touch an id: whatever the arguments, found or not, the
    list of ids, [nextId] and the path are as before. *)
Theorem toggle_edit_keep_ids (m : TaskManager) (id : Z) (nt nn : str) :
  ids (tasks (snd (toggleComplete id m))) = ids (tasks m)
  /\ nextId (snd (toggleComplete id m)) = nextId m
  /\ savePath (snd (toggleComplete id m)) = savePath m
  /\ ids (tasks (snd (editTask id nt nn m))) = ids (tasks m)
  /\ nextId (snd (editTask id nt nn m)) = nextId m
  /\ savePath (snd (editTask id nt nn m)) = savePath m.
Proof.
  unfold toggleComplete, editTask.
  destruct (update_first id (fun t => setCompleted t (negb (isCompleted t)))
              (tasks m)) as [b1 ts1] eqn:E1.
  destruct (update_first id (edit_fields nt nn) (tasks m)) as [b2 ts2] eqn:E2.
  apply update_first_same_ids in E1; [|reflexivity].
  apply update_first_same_ids in E2; [|apply edit_fields_id].
  cbn [snd tasks nextId savePath]. repeat split; assumption.
Qed.

(** ** Add, then remove *)

(** X6.  In a store where no task has the id [nextId] (as when every id
    is below [nextId]), removing the id that [addTask] just returned gives
    back the collection as it was before the add; [nextId] stays advanced,
    so the id is not handed out again. *)
Theorem add_then_remove (title notes : str) (m : TaskManager) :
  ~ In (nextId m) (ids (tasks m)) ->
  removeById (fst (addTask title notes m)) (snd (addTask title notes m))
  = (true, mkManager (tasks m) (wrap_int (nextId m + 1)) (savePath m)).
Proof.
  intros Hn. rewrite addTask_eq. cbn [fst snd]. unfold removeById.
  cbn [tasks nextId savePath].
  rewrite (remove_first_split (nextId m) (tasks m)
             (mkTask (nextId m) title notes false) [] Hn eq_refl).
  now rewrite app_nil_r.
Qed.

Lemma add_then_remove_witness :
  removeById (fst (addTask (lit "t") [] sample_store))
             (snd (addTask (lit "t") [] sample_store))
  = (true, mkManager (tasks sample_store) 4 (lit "tasks.csv")).
Proof.
  apply (add_then_remove (lit "t") [] sample_store).
  simpl. intros [H|[H|[]]]; discriminate H.
Defined.

(** ** Escaping *)

Lemma escapeCommas_head s :
  match escapeCommas s with
  | c :: _ => Ascii.eqb c comma = false
  | [] => True
  end.
Proof.
  destruct s as [|c r]; [exact I|]. cbn [escapeCommas].
  destruct (Ascii.eqb c comma) eqn:E; [reflexivity|].
  destruct (Ascii.eqb c LF || Ascii.eqb c CR); [reflexivity|exact E].
Qed.

Lemma unescapeCommas_cons c e :
  match e with c' :: _ => Ascii.eqb c' comma = false | [] => True end ->
  unescapeCommas (c :: e) = c :: unescapeCommas e.
Proof.
  destruct e as [|c' r]; intros H; [reflexivity|].
  cbn [unescapeCommas]. rewrite H, andb_false_r. reflexivity.
Qed.

(** X7.  [unescapeCommas] undoes [escapeCommas] on every text, commas
    and backslashes included; only line feeds and carriage returns come
    back as spaces.  (The loss of backslashes on load is the splitter's
    doing, not that of this pair.) *)
Theorem unescape_escape (s : str) :
  unescapeCommas (escapeCommas s) = map nl_to_space s.
Proof.
  induction s as [|c r IH]; [reflexivity|].
  cbn [escapeCommas map]. unfold nl_to_space at 1.
  pose proof (escapeCommas_head r) as Hh.
  destruct (Ascii.eqb_spec c comma) as [->|Hc].
  - change (Ascii.eqb comma LF || Ascii.eqb comma CR) with false. cbv iota.
    cbn [unescapeCommas].
    change (Ascii.eqb backslash backslash && Ascii.eqb comma comma) with true.
    cbv iota. now rewrite IH.
  - destruct (Ascii.eqb c LF || Ascii.eqb c CR);
      rewrite unescapeCommas_cons by exact Hh; now rewrite IH.
Qed.

(** ** One line per task *)

Lemma escapeCommas_no_CR s :
  Forall (fun c => Ascii.eqb c CR = false) (escapeCommas s).
Proof.
  induction s as [|c r IH]; cbn [escapeCommas]; [constructor|].
  destruct (Ascii.eqb_spec c comma) as [->|Hn].
  - repeat constructor. exact IH.
  - destruct (Ascii.eqb c LF) eqn:E; cbn [orb].
    + constructor; [reflexivity|exact IH].
    + destruct (Ascii.eqb c CR) eqn:E'; constructor; auto.
Qed.

Lemma plain_no_CR s :
  Forall (fun c => is_plain c = true) s ->
  Forall (fun c => Ascii.eqb c CR = false) s.
Proof.
  apply Forall_impl. intros c H. now apply is_plain_not.
Qed.

Lemma toCsv_no_CR t : Forall (fun c => Ascii.eqb c CR = false) (toCsv t).
Proof.
  rewrite toCsv_eq.
  repeat first [apply Forall_app; split | apply Forall_cons];
    try reflexivity;
    try apply escapeCommas_no_CR;
    try (apply plain_no_CR; unfold flag_text;
         try destruct (isCompleted t); apply print_int_plain).
Qed.

(** X8.  Whatever the title and notes hold, the line [toCsv] builds has
    no line feed and no carriage return, and the file [save] writes is
    read by [std::getline] as exactly these lines, one per task, in
    collection order. *)
Theorem saved_file_one_line_per_task (ts : list Task) :
  Forall (fun t =>
            Forall (fun c => Ascii.eqb c LF = false /\ Ascii.eqb c CR = false)
                   (toCsv t)) ts
  /\ getlines (save_text ts) = map toCsv ts
  /\ List.length (getlines (save_text ts)) = List.length ts.
Proof.
  split; [|split].
  - apply Forall_forall. intros t _. apply Forall_forall. intros c Hc.
    pose proof (toCsv_no_LF t) as H1. pose proof (toCsv_no_CR t) as H2.
    rewrite Forall_forall in H1, H2. auto.
  - apply getlines_save_text.
  - now rewrite getlines_save_text, length_map.
Qed.

(** ** What a saved line keeps in any case *)

Lemma flag_text_plain b : Forall (fun c => is_plain c = true) (flag_text b).
Proof. unfold flag_text. destruct b; apply print_int_plain. Qed.

Lemma stoi_flag_text b : stoi (flag_text b) = Some (if b then 1 else 0).
Proof. destruct b; reflexivity. Qed.

Lemma trim_toCsv_two_fields t :
  exists x,
    trim (toCsv t)
    = print_int (getId t) ++ comma :: flag_text (isCompleted t) ++ comma :: x.
Proof.
  rewrite toCsv_eq.
  pose proof (print_int_plain (getId t)) as Hp.
  pose proof (print_int_nonempty (getId t)) as Hne.
  destruct (print_int (getId t)) as [|c pr]; [congruence|].
  inversion Hp as [|? ? Hc _]; subst. cbn [app].
  rewrite trim_plain_head by exact Hc.
  change (pr ++ comma :: flag_text (isCompleted t) ++ comma ::
            escapeCommas (getTitle t) ++ comma :: escapeCommas (getNotes t))
    with (pr ++ [comma] ++ flag_text (isCompleted t) ++ comma ::
            escapeCommas (getTitle t) ++ comma :: escapeCommas (getNotes t)).
  rewrite !app_assoc.
  rewrite rtrim_app_tight by reflexivity.
  rewrite <- !app_assoc. cbn [app]. eauto.
Qed.

Lemma fromCsv_two_fields z b x u :
  fromCsv (print_int z ++ comma :: flag_text b ++ comma :: x) = Some u ->
  getId u = z /\ isCompleted u = b.
Proof.
  unfold fromCsv, split_fields.
  rewrite split_loop_plain by apply print_int_plain.
  rewrite split_loop_comma.
  rewrite split_loop_plain by apply flag_text_plain.
  rewrite split_loop_comma.
  match goal with
  | |- context [split_loop x ?ps [] false] =>
      destruct (split_loop_extends x ps [] false) as (p & more & ->)
  end.
  cbn [app nth]. destruct (_ <? _)%nat; [discriminate|].
  rewrite stoi_print_int_gen, stoi_flag_text.
  destruct (in_int z); [|discriminate].
  intros H. injection H as <-. cbn [getId isCompleted].
  split; [reflexivity|]. now destruct b.
Qed.

(** X9.  Whatever the title and notes hold, [load] reads a line written
    by [save] either not at all or as a task with the id and completed
    flag it was written with: a damaged title or notes field never
    changes these two. *)
Theorem saved_line_keeps_id_and_flag (t u : Task) :
  In u (accept (toCsv t)) ->
  getId u = getId t /\ isCompleted u = isCompleted t.
Proof.
  unfold accept. destruct (trim_toCsv_two_fields t) as [x ->].
  destruct (fromCsv _) as [v|] eqn:E; [|contradiction].
  intros [<-|[]]. eapply fromCsv_two_fields, E.
Qed.

Lemma saved_line_keeps_id_and_flag_witness :
  accept (toCsv (mkTask 4 (lit "C\a\b") (lit "d  ") true))
  = [mkTask 4 (lit "Cab") (lit "d") true]
  /\ getId (mkTask 4 (lit "Cab") (lit "d") true)
     = getId (mkTask 4 (lit "C\a\b") (lit "d  ") true)
  /\ isCompleted (mkTask 4 (lit "Cab") (lit "d") true)
     = isCompleted (mkTask 4 (lit "C\a\b") (lit "d  ") true).
Proof.
  split; [reflexivity|].
  apply (saved_line_keeps_id_and_flag
           (mkTask 4 (lit "C\a\b") (lit "d  ") true)
           (mkTask 4 (lit "Cab") (lit "d") true)).
  vm_compute. now left.
Defined.

(** ** Too few or too many fields *)

Lemma split_loop_length line : forall parts cur esc,
  (List.length (split_loop line parts cur esc)
   <= List.length parts + 1 + count_commas line)%nat.
Proof.
  unfold count_commas.
  induction line as [|c r IH]; intros parts cur esc; cbn [split_loop filter].
  - rewrite length_app. simpl. lia.
  - destruct esc.
    + specialize (IH parts (cur ++ [c]) false).
      destruct (Ascii.eqb c comma); simpl; lia.
    + destruct (Ascii.eqb_spec c backslash) as [->|Hb].
      * specialize (IH parts cur true).
        change (Ascii.eqb backslash comma) with false. cbv iota. lia.
      * destruct (Ascii.eqb c comma).
        -- specialize (IH (parts ++ [cur]) [] false).
           rewrite length_app in IH. simpl in *. lia.
        -- specialize (IH parts (cur ++ [c]) false). lia.
Qed.

(** X10.  A line with fewer than three commas has fewer than four
    fields and is refused by [fromCsv], so [load] adds nothing for it; the
    empty line is such a line. *)
Theorem few_commas_refused (line : str) :
  ((count_commas line < 3)%nat -> fromCsv line = None)
  /\ ((count_commas (trim line) < 3)%nat -> accept line = []).
Proof.
  assert (H : forall l, (count_commas l < 3)%nat -> fromCsv l = None).
  { intros l Hl. apply fromCsv_short.
    pose proof (split_loop_length l [] [] false) as Hlen.
    unfold split_fields. simpl in Hlen. lia. }
  split; [apply H|].
  intros Ht. unfold accept. now rewrite (H _ Ht).
Qed.

Lemma few_commas_refused_witness :
  fromCsv (lit "2,1,only a title") = None
  /\ accept (lit "  2,1,only a title ") = [].
Proof.
  split.
  - apply (proj1 (few_commas_refused (lit "2,1,only a title"))).
    vm_compute. lia.
  - apply (proj2 (few_commas_refused (lit "  2,1,only a title "))).
    vm_compute. lia.
Defined.

Lemma split_loop_parts b : forall ps cur esc,
  split_loop b ps cur esc = ps ++ split_loop b [] cur esc.
Proof.
  induction b as [|c r IH]; intros ps cur esc; cbn [split_loop].
  - reflexivity.
  - destruct esc; [apply IH|].
    destruct (Ascii.eqb c backslash); [apply IH|].
    destruct (Ascii.eqb c comma); [|apply IH].
    rewrite IH, (IH ([] ++ [cur])). now rewrite <- app_assoc.
Qed.

Lemma split_loop_app a b : forall parts cur,
  no_backslash a = true ->
  split_loop (a ++ comma :: b) parts cur false
  = split_loop a parts cur false ++ split_fields b.
Proof.
  unfold split_fields.
  induction a as [|c a IH]; intros parts cur H; cbn [app].
  - rewrite split_loop_comma. cbn [split_loop]. apply split_loop_parts.
  - cbn [no_backslash forallb] in H. apply andb_true_iff in H as [Hc Ha].
    apply negb_true_iff in Hc. cbn [split_loop]. rewrite Hc.
    destruct (Ascii.eqb c comma); now apply IH.
Qed.

(** X11.  [fromCsv] looks at the first four fields only: when a line
    without backslashes has at least four fields, appending a comma and
    any text gives the same result. *)
Theorem text_after_fourth_field_ignored (a b : str) :
  no_backslash a = true ->
  (4 <= List.length (split_fields a))%nat ->
  fromCsv (a ++ comma :: b) = fromCsv a.
Proof.
  intros Ha Hlen.
  destruct (four_fields _ Hlen) as (p0 & p1 & p2 & p3 & more & E).
  rewrite (fromCsv_fields a _ _ _ _ _ E).
  apply fromCsv_fields with (more := more ++ split_fields b).
  unfold split_fields at 1. rewrite split_loop_app by exact Ha.
  fold (split_fields a). now rewrite E.
Qed.

Lemma text_after_fourth_field_ignored_witness :
  fromCsv (lit "1,0,a,b" ++ comma :: lit "c\,d,e")
  = Some (mkTask 1 (lit "a") (lit "b") false).
Proof.
  rewrite (text_after_fourth_field_ignored (lit "1,0,a,b") (lit "c\,d,e")).
  - reflexivity.
  - reflexivity.
  - vm_compute. lia.
Defined.

(** ** White space around a line *)

Lemma trim_app_ws_l w s :
  forallb is_trim w = true -> trim (w ++ s) = trim s.
Proof.
  induction w as [|c w IH]; intros H; [reflexivity|].
  cbn [forallb] in H. apply andb_true_iff in H as [Hc Hw].
  cbn [app]. rewrite trim_cons_ws by exact Hc. now apply IH.
Qed.

Lemma rtrim_app_ws x w :
  forallb is_trim w = true -> rtrim (x ++ w) = rtrim x.
Proof.
  intros H. induction x as [|c x IH]; cbn [app].
  - now apply rtrim_nil_iff.
  - cbn [rtrim]. now rewrite IH.
Qed.

Lemma trim_app_ws_r s w :
  forallb is_trim w = true -> trim (s ++ w) = trim s.
Proof.
  intros H. induction s as [|c r IH]; cbn [app].
  - now apply trim_nil_iff.
  - destruct (is_trim c) eqn:Ec.
    + now rewrite !trim_cons_ws.
    + rewrite !trim_cons_nws by exact Ec. now rewrite rtrim_app_ws.
Qed.

(** X12.  [load] reads a line without regard to the [" \t\r\n"]
    characters around it: padding a line with them on either side does not
    change what it contributes, so a file with CR LF line ends loads like
    one with LF line ends, and a line made of such characters only
    contributes nothing. *)
Theorem load_ignores_surrounding_space (w1 line w2 : str) :
  forallb is_trim w1 = true ->
  forallb is_trim w2 = true ->
  accept (w1 ++ line ++ w2) = accept line
  /\ accept (line ++ [CR]) = accept line
  /\ accept w1 = [].
Proof.
  intros H1 H2. unfold accept. split; [|split].
  - now rewrite trim_app_ws_l, trim_app_ws_r.
  - now rewrite trim_app_ws_r.
  - apply trim_nil_iff in H1. now rewrite H1.
Qed.

Lemma load_ignores_surrounding_space_witness :
  accept ([space; tab] ++ lit "3,1,a,b" ++ [space; CR])
  = [mkTask 3 (lit "a") (lit "b") true]
  /\ accept (lit "3,1,a,b" ++ [CR]) = accept (lit "3,1,a,b")
  /\ accept [space; tab] = [].
Proof.
  destruct (load_ignores_surrounding_space [space; tab] (lit "3,1,a,b")
              [space; CR] eq_refl eq_refl) as (H1 & H2 & H3).
  split; [|split; assumption]. rewrite H1. reflexivity.
Defined.

(** ** Load replaces the collection *)

(** X13.  [load] does not depend on what the store held: when the file
    can be opened, any two stores with the same path hold the same tasks
    and the same [nextId] after it, so tasks that were not saved are gone;
    and loading twice is the same as loading once, whether the file opens
    or not. *)
Theorem load_replaces_collection (fs : FileSystem) (m : TaskManager) :
  load fs (snd (load fs m)) = load fs m
  /\ (forall m2,
        savePath m2 = savePath m ->
        contents fs (savePath m) <> None ->
        load fs m2 = load fs m).
Proof.
  destruct (contents fs (savePath m)) as [text|] eqn:E.
  - split.
    + rewrite (load_opened _ _ _ E). cbn [snd].
      now rewrite (load_opened fs (mkManager _ _ (savePath m)) text E).
    + intros m2 Hp _. rewrite <- Hp in E.
      rewrite (load_opened _ _ _ E). rewrite Hp in E.
      rewrite (load_opened _ _ _ E). now rewrite Hp.
  - split.
    + unfold load. rewrite E. cbn [snd]. now rewrite E.
    + intros m2 _ H. contradiction.
Qed.

Lemma load_replaces_collection_witness :
  load file_375 sample_store = load file_375 (newManager (lit "tasks.csv")).
Proof.
  apply (proj2 (load_replaces_collection file_375
                  (newManager (lit "tasks.csv"))) sample_store).
  - reflexivity.
  - discriminate.
Defined.

(** ** Ids after a load *)

(** X14.  After a load that opened the file, when no loaded id is
    [INT_MAX], every id in the store is below [nextId] and [nextId] is at
    least 1, so the id the next [addTask] returns is not in the store. *)
Theorem load_ids_below_nextId (fs : FileSystem) (m : TaskManager) (text : str) :
  contents fs (savePath m) = Some text ->
  Forall (fun i => i < INT_MAX) (ids (loaded (getlines text))) ->
  let m' := snd (load fs m) in
  (forall i, In i (ids (tasks m')) -> i < nextId m')
  /\ 1 <= nextId m' <= INT_MAX
  /\ (forall title notes,
        ~ In (fst (addTask title notes m')) (ids (tasks m'))).
Proof.
  intros E Hlt m'. subst m'. rewrite (load_opened _ _ _ E).
  cbn [snd tasks nextId]. set (l := loaded (getlines text)) in *.
  pose proof (fold_bump_ge l 0) as Hge.
  assert (Hmax : fold_left bump l 0 < INT_MAX).
  { destruct (fold_bump_attained l 0) as [E0|Hin].
    - rewrite E0. reflexivity.
    - rewrite Forall_forall in Hlt. now apply Hlt. }
  rewrite wrap_int_small by (unfold INT_MIN, INT_MAX in *; lia).
  assert (Hall : forall i, In i (ids l) -> i < fold_left bump l 0 + 1).
  { intros i Hi. pose proof (fold_bump_upper l 0 i Hi). lia. }
  split; [exact Hall|]. split; [lia|].
  intros title notes. rewrite addTask_eq. cbn [fst nextId tasks].
  intros Hin. specialize (Hall _ Hin). lia.
Qed.

Lemma load_ids_below_nextId_witness :
  1 <= nextId (snd (load file_375 (newManager (lit "tasks.csv")))) <= INT_MAX
  /\ ~ In (fst (addTask (lit "t") []
                  (snd (load file_375 (newManager (lit "tasks.csv"))))))
          (ids (tasks (snd (load file_375 (newManager (lit "tasks.csv")))))).
Proof.
  destruct (load_ids_below_nextId file_375 (newManager (lit "tasks.csv")) _
              eq_refl) as (_ & H1 & H2).
  - apply Forall_forall. intros i Hi. vm_compute in Hi.
    destruct Hi as [<-|[<-|[<-|[]]]]; reflexivity.
  - split; [exact H1|apply H2].
Defined.

(** With the id [INT_MAX] in the file the addition wraps (where the
    target wraps) and [nextId] is [INT_MIN]. *)
Example load_INT_MAX_wraps :
  nextId (snd (load (one_file (lit "tasks.csv")
                       (file_of [lit "2147483647,0,a,b"]))
                    (newManager (lit "tasks.csv")))) = INT_MIN.
Proof. reflexivity. Qed.

(** ** The shell's add and edit branches *)

Lemma trim_no_trailing_ws l : no_trailing_ws (trim l) = true.
Proof.
  unfold no_trailing_ws. rewrite trim_ltrim_rtrim, rtrim_last. reflexivity.
Qed.

Lemma readLine_trimmed input s rest :
  readLine input = (s, rest) -> trim s = s /\ no_trailing_ws s = true.
Proof.
  destruct input as [|l r]; cbn [readLine]; intros H; injection H as <- <-.
  - split; reflexivity.
  - split; [apply trim_idem|apply trim_no_trailing_ws].
Qed.

Lemma read_title_skips_blanks blanks l input :
  Forall (fun b => trim b = []) blanks ->
  trim l <> [] ->
  read_title (blanks ++ l :: input) = Some (trim l, input).
Proof.
  intros Hb Hl. induction Hb as [|b bs Hbl _ IH]; cbn [app read_title].
  - destruct (trim l); [contradiction|reflexivity].
  - now rewrite Hbl.
Qed.

(** X15.  Given input that holds, after any number of blank lines, a
    line that is not blank, the "Add task" branch of [main] does create a
    task: it returns the id [nextId] and appends the task with that id,
    the trimmed line as title, the trimmed next line as notes and
    [completed = false].  When the file can be written, [nextId] is an
    [int] and neither the title nor the notes holds a backslash or a line
    break, [save] succeeds and a following [load] succeeds and has this
    task as the last one of the store. *)
Theorem menu_add_task_survives
    (blanks : list str) (l : str) (input : list str) (m : TaskManager)
    (fs : FileSystem) :
  Forall (fun b => trim b = []) blanks ->
  trim l <> [] ->
  let notes := fst (readLine input) in
  let t := mkTask (nextId m) (trim l) notes false in
  let m' := mkManager (tasks m ++ [t]) (wrap_int (nextId m + 1)) (savePath m) in
  menu_add (blanks ++ l :: input) m = Some (nextId m, m', snd (readLine input))
  /\ trim notes = notes
  /\ (writable fs (savePath m) = true ->
      in_int (nextId m) = true ->
      field_ok (trim l) = true -> field_ok notes = true ->
      fst (save fs m') = true
      /\ fst (load (snd (save fs m')) m') = true
      /\ exists before,
           tasks (snd (load (snd (save fs m')) m')) = before ++ [t]).
Proof.
  intros Hb Hl notes t m'.
  destruct (readLine input) as [no r'] eqn:En.
  destruct (readLine_trimmed _ _ _ En) as [Htrim Hws].
  cbn [fst snd] in *. subst notes.
  split; [|split].
  - unfold menu_add. rewrite (read_title_skips_blanks _ _ _ Hb Hl), En.
    now rewrite addTask_eq.
  - exact Htrim.
  - intros Hw Hi Ht Hn.
    assert (Hw' : writable fs (savePath m') = true) by exact Hw.
    destruct (save_writable fs m' Hw') as [Hs Hc].
    split; [now rewrite Hs|].
    rewrite (load_opened _ _ _ Hc). cbn [fst snd tasks].
    split; [reflexivity|].
    rewrite getlines_save_text. subst m'. cbn [tasks].
    rewrite map_app, loaded_app. cbn [map loaded flat_map].
    rewrite accept_toCsv.
    + eexists. reflexivity.
    + unfold task_ok, t. cbn [getId getTitle getNotes].
      now rewrite Hi, Ht, Hn, Hws.
Qed.

Lemma menu_add_task_survives_witness :
  menu_add [lit "  "; lit " Buy milk, eggs "; lit " 2%  "; lit "next"]
           (newManager (lit "tasks.csv"))
  = Some (1,
          mkManager [mkTask 1 (lit "Buy milk, eggs") (lit "2%") false] 2
                    (lit "tasks.csv"),
          [lit "next"])
  /\ exists before,
       tasks (snd (load (snd (save no_files
                                (mkManager
                                   [mkTask 1 (lit "Buy milk, eggs") (lit "2%")
                                           false] 2 (lit "tasks.csv"))))
                        (mkManager
                           [mkTask 1 (lit "Buy milk, eggs") (lit "2%") false]
                           2 (lit "tasks.csv"))))
       = before ++ [mkTask 1 (lit "Buy milk, eggs") (lit "2%") false].
Proof.
  destruct (menu_add_task_survives [lit "  "] (lit " Buy milk, eggs ")
              [lit " 2%  "; lit "next"] (newManager (lit "tasks.csv"))
              no_files) as (H1 & _ & H3).
  - repeat constructor.
  - discriminate.
  - split; [exact H1|].
    destruct H3 as (_ & _ & H); try reflexivity. exact H.
Defined.

Lemma editTask_empty_args id m :
  In id (ids (tasks m)) -> editTask id [] [] m = (true, m).
Proof.
  intros Hin.
  destruct (first_with_id id (tasks m) Hin) as (l1 & t & l2 & E & Ht & Hn).
  unfold editTask. rewrite E, (update_first_split _ _ _ _ _ Hn Ht).
  destruct m as [ts n p], t. simpl in *. now subst ts.
Qed.

(** X16.  In the "Edit task" branch of [main], answers made of white
    space only (or the end of the input) keep the field: since [readLine]
    trims before [editTask] tests for emptiness, editing an existing task
    with two blank answers reports success and leaves the store as it
    was. *)
Theorem menu_edit_blank_keeps (id : Z) (l1 l2 : str) (rest : list str)
    (m : TaskManager) :
  In id (ids (tasks m)) ->
  forallb is_trim l1 = true ->
  forallb is_trim l2 = true ->
  menu_edit id (l1 :: l2 :: rest) m = (true, m, rest)
  /\ menu_edit id [] m = (true, m, []).
Proof.
  intros Hin H1 H2. unfold menu_edit. cbn [readLine].
  apply trim_nil_iff in H1, H2. rewrite H1, H2.
  now rewrite (editTask_empty_args id m Hin).
Qed.

Lemma menu_edit_blank_keeps_witness :
  menu_edit 2 (lit "   " :: [tab] :: [lit "x"]) sample_store
  = (true, sample_store, [lit "x"])
  /\ menu_edit 2 [] sample_store = (true, sample_store, []).
Proof.
  apply (menu_edit_blank_keeps 2 (lit "   ") [tab] [lit "x"] sample_store).
  - simpl. tauto.
  - reflexivity.
  - reflexivity.
Defined.

(** ** The listing *)

Lemma no_LF_Forall s :
  no_LF s = true -> Forall (fun c => Ascii.eqb c LF = false) s.
Proof.
  unfold no_LF. rewrite forallb_forall, Forall_forall.
  intros H c Hc. apply negb_true_iff. now apply H.
Qed.

Lemma left_setw_no_LF w s :
  Forall (fun c => Ascii.eqb c LF = false) s ->
  Forall (fun c => Ascii.eqb c LF = false) (left_setw w s).
Proof.
  intros H. unfold left_setw. apply Forall_app. split; [exact H|].
  apply Forall_forall. intros c Hc. apply repeat_spec in Hc. now subst.
Qed.

Lemma task_row_no_LF t :
  no_LF (getTitle t) = true -> no_LF (getNotes t) = true ->
  Forall (fun c => Ascii.eqb c LF = false) (task_row t).
Proof.
  intros Ht Hn. unfold task_row.
  apply Forall_app. split.
  { apply left_setw_no_LF, plain_no_LF, print_int_plain. }
  apply Forall_app. split.
  { apply left_setw_no_LF.
    destruct (isCompleted t); apply no_LF_Forall; reflexivity. }
  apply Forall_app. split.
  { apply left_setw_no_LF. now apply no_LF_Forall. }
  now apply no_LF_Forall.
Qed.

Lemma getlines_from_LF r cur :
  getlines_from (LF :: r) cur = cur :: getlines_from r [].
Proof. reflexivity. Qed.

Lemma getlines_from_rows (f : Task -> str) ts : forall rest,
  Forall (fun t => Forall (fun c => Ascii.eqb c LF = false) (f t)) ts ->
  getlines_from (concat (map (fun t => f t ++ [LF]) ts) ++ rest) []
  = map f ts ++ getlines_from rest [].
Proof.
  induction ts as [|t ts IH]; intros rest H; [reflexivity|].
  inversion H as [|? ? Ht Hts]; subst.
  cbn [map concat]. rewrite <- !app_assoc. cbn [app].
  rewrite getlines_from_line by exact Ht. cbn [app]. now rewrite IH.
Qed.

(** X17.  For a non-empty collection whose titles and notes hold no line
    feed, [printTasks] writes an empty line, the header, the rule of 75
    equal signs, then one row per task in collection order, and an empty
    line; a row is the id, the status and the title, each padded with
    spaces to 6, 12 and 30 columns and never cut, followed by the notes. *)
Theorem printTasks_one_row_per_task (ts : list Task) :
  ts <> [] ->
  Forall (fun t => no_LF (getTitle t) = true /\ no_LF (getNotes t) = true) ts ->
  getlines (printTasks ts)
  = [] :: table_header :: table_rule :: map task_row ts ++ [[]].
Proof.
  intros Hne Hok. unfold getlines, printTasks.
  destruct ts as [|t0 ts0]; [contradiction|].
  set (ts := t0 :: ts0) in *. cbn [app].
  rewrite getlines_from_LF. f_equal.
  rewrite (getlines_from_line table_header _ [])
    by (apply no_LF_Forall; reflexivity).
  cbn [app]. f_equal.
  rewrite (getlines_from_line table_rule _ [])
    by (apply no_LF_Forall; reflexivity).
  cbn [app]. f_equal.
  rewrite getlines_from_rows.
  - reflexivity.
  - eapply Forall_impl; [|exact Hok]. intros t [Ht Hn].
    now apply task_row_no_LF.
Qed.

Lemma printTasks_one_row_per_task_witness :
  getlines (printTasks (tasks sample_store))
  = [[]; table_header; table_rule;
     lit "1     Open        Buy milk                      2%";
     lit "2     Complete    Walk dog                      ";
     []].
Proof.
  rewrite (printTasks_one_row_per_task (tasks sample_store)).
  - reflexivity.
  - discriminate.
  - repeat constructor.
Defined.

(** A title of more than 30 characters is written whole and pushes the
    notes to the right. *)
Example left_setw_long :
  left_setw 6 (lit "1234567") = lit "1234567"
  /\ left_setw 6 (lit "12") = lit "12    ".
Proof. split; reflexivity. Qed.

(** ** [nextId] across save and load *)

(** X18.  Saving and loading again recomputes [nextId] from the tasks
    that are in the store: for tasks that the file format keeps and ids
    below [INT_MAX], the reloaded store has the same tasks, [nextId] above
    every id, and [nextId] either 1 or one more than an id in the store,
    whatever [nextId] was before.  So the id of a task that was removed
    after being the last one added is issued again after a reload. *)
Theorem reload_recomputes_nextId (fs : FileSystem) (m : TaskManager) :
  writable fs (savePath m) = true ->
  Forall (fun t => task_ok t = true) (tasks m) ->
  Forall (fun i => i < INT_MAX) (ids (tasks m)) ->
  let m' := snd (load (snd (save fs m)) m) in
  tasks m' = tasks m
  /\ (forall i, In i (ids (tasks m)) -> i < nextId m')
  /\ (nextId m' = 1 \/ In (nextId m' - 1) (ids (tasks m))).
Proof.
  intros Hw Hok Hlt m'. subst m'.
  destruct (save_writable fs m Hw) as [_ Hc].
  rewrite (load_opened _ _ _ Hc). cbn [snd tasks nextId].
  rewrite getlines_save_text, (loaded_saved _ Hok).
  set (l := tasks m) in *.
  pose proof (fold_bump_ge l 0) as Hge.
  assert (Hmax : fold_left bump l 0 < INT_MAX).
  { destruct (fold_bump_attained l 0) as [E0|Hin].
    - rewrite E0. reflexivity.
    - rewrite Forall_forall in Hlt. now apply Hlt. }
  rewrite wrap_int_small by (unfold INT_MIN, INT_MAX in *; lia).
  split; [reflexivity|]. split.
  - intros i Hi. pose proof (fold_bump_upper l 0 i Hi). lia.
  - destruct (fold_bump_attained l 0) as [E0|Hin].
    + left. now rewrite E0.
    + right. now replace (fold_left bump l 0 + 1 - 1)
               with (fold_left bump l 0) by lia.
Qed.

Lemma reload_recomputes_nextId_witness :
  returned_ids (fst (run reuse_run (newManager (lit "tasks.csv"), no_files)))
    = [1; 2; 2]
  /\ (nextId (snd (load (snd (save no_files
                                 (mkManager [mkTask 1 (lit "a") [] false] 3
                                            (lit "tasks.csv"))))
                        (mkManager [mkTask 1 (lit "a") [] false] 3
                                   (lit "tasks.csv")))) = 1
      \/ In (nextId (snd (load (snd (save no_files
                                 (mkManager [mkTask 1 (lit "a") [] false] 3
                                            (lit "tasks.csv"))))
                        (mkManager [mkTask 1 (lit "a") [] false] 3
                                   (lit "tasks.csv")))) - 1)
            (ids [mkTask 1 (lit "a") [] false])).
Proof.
  split; [reflexivity|].
  apply (reload_recomputes_nextId no_files
           (mkManager [mkTask 1 (lit "a") [] false] 3 (lit "tasks.csv"))).
  - reflexivity.
  - repeat constructor.
  - repeat constructor.
Defined.

(** ** The number of fields *)

Lemma split_loop_count s : forall parts cur,
  no_backslash s = true ->
  List.length (split_loop s parts cur false)
  = (List.length parts + 1 + count_commas s)%nat.
Proof.
  unfold count_commas.
  induction s as [|c r IH]; intros parts cur H; cbn [split_loop filter].
  - rewrite length_app. simpl. lia.
  - cbn [no_backslash forallb] in H. apply andb_true_iff in H as [Hc Hr].
    apply negb_true_iff in Hc. rewrite Hc.
    destruct (Ascii.eqb c comma).
    + rewrite IH by exact Hr. rewrite length_app. simpl. lia.
    + now rewrite IH.
Qed.

(** X19.  The splitter of [fromCsv] always yields at least one field and
    at most one more than the line has commas; for a line without
    backslashes it yields exactly one more than the number of commas. *)
Theorem split_fields_count (s : str) :
  (1 <= List.length (split_fields s) <= 1 + count_commas s)%nat
  /\ (no_backslash s = true ->
      List.length (split_fields s) = (1 + count_commas s)%nat).
Proof.
  unfold split_fields. split; [split|].
  - destruct (split_loop_extends s [] [] false) as (p & more & ->).
    simpl. lia.
  - pose proof (split_loop_length s [] [] false) as H. simpl in H. lia.
  - intros H. rewrite split_loop_count by exact H. reflexivity.
Qed.

Lemma split_fields_count_witness :
  List.length (split_fields (lit "1,0,a,b")) = 4%nat
  /\ (List.length (split_fields (lit "1,0,a\,b")) <= 4)%nat.
Proof.
  split.
  - apply (proj2 (split_fields_count (lit "1,0,a,b"))). reflexivity.
  - apply (proj1 (split_fields_count (lit "1,0,a\,b"))).
Defined.

(** ** Line breaks in a title or in notes *)

Lemma split_loop_escaped_gen t : forall r parts cur,
  no_backslash t = true ->
  split_loop (escapeCommas t ++ r) parts cur false
  = split_loop r parts (cur ++ map nl_to_space t) false.
Proof.
  induction t as [|c t IH]; intros r parts cur H; cbn [escapeCommas app map].
  - now rewrite app_nil_r.
  - cbn [no_backslash forallb] in H. apply andb_true_iff in H as [Hc Ht].
    apply negb_true_iff in Hc.
    replace (cur ++ nl_to_space c :: map nl_to_space t)
      with ((cur ++ [nl_to_space c]) ++ map nl_to_space t)
      by now rewrite <- app_assoc.
    unfold nl_to_space at 1.
    destruct (Ascii.eqb_spec c comma) as [->|Hn].
    + cbn [app split_loop]. change (Ascii.eqb backslash backslash) with true.
      cbv iota. change (Ascii.eqb comma LF || Ascii.eqb comma CR) with false.
      cbv iota. now apply IH.
    + destruct (Ascii.eqb c LF || Ascii.eqb c CR); cbn [app split_loop].
      * change (Ascii.eqb space backslash) with false.
        change (Ascii.eqb space comma) with false. cbv iota. now apply IH.
      * rewrite Hc. destruct (Ascii.eqb_spec c comma); [contradiction|].
        now apply IH.
Qed.

Lemma unescapeCommas_no_backslash s :
  no_backslash s = true -> unescapeCommas s = s.
Proof.
  induction s as [|c r IH]; [reflexivity|]. intros H.
  cbn [no_backslash forallb] in H. apply andb_true_iff in H as [Hc Hr].
  apply negb_true_iff in Hc. cbn [unescapeCommas]. rewrite Hc. cbn [andb].
  destruct r; [reflexivity|]. f_equal. now apply IH.
Qed.

Lemma no_backslash_nl_to_space s :
  no_backslash s = true -> no_backslash (map nl_to_space s) = true.
Proof.
  induction s as [|c r IH]; [reflexivity|]. cbn [no_backslash forallb map].
  intros H. apply andb_true_iff in H as [Hc Hr]. apply andb_true_iff.
  split; [|now apply IH]. unfold nl_to_space.
  destruct (Ascii.eqb c LF || Ascii.eqb c CR); [reflexivity|exact Hc].
Qed.

(** X20.  For a task with an [int] id whose title and notes hold no
    backslash, [fromCsv] reads the line [toCsv] writes as the same task
    with every line feed and carriage return of the title and notes
    replaced by a space; commas are kept. *)
Theorem fromCsv_toCsv_line_breaks (t : Task) :
  in_int (getId t) = true ->
  no_backslash (getTitle t) = true ->
  no_backslash (getNotes t) = true ->
  fromCsv (toCsv t)
  = Some (mkTask (getId t) (map nl_to_space (getTitle t))
                 (map nl_to_space (getNotes t)) (isCompleted t)).
Proof.
  intros Hi Ht Hn.
  assert (E : split_fields (toCsv t)
              = [print_int (getId t); flag_text (isCompleted t);
                 map nl_to_space (getTitle t); map nl_to_space (getNotes t)]).
  { unfold split_fields. rewrite toCsv_eq.
    rewrite split_loop_plain by apply print_int_plain.
    rewrite split_loop_comma.
    rewrite split_loop_plain by apply flag_text_plain.
    rewrite split_loop_comma.
    rewrite split_loop_escaped_gen by exact Ht.
    rewrite split_loop_comma.
    rewrite <- (app_nil_r (escapeCommas (getNotes t))).
    rewrite split_loop_escaped_gen by exact Hn.
    reflexivity. }
  rewrite (fromCsv_fields _ _ _ _ _ _ E).
  rewrite (stoi_print_int _ Hi), stoi_flag_text.
  rewrite !unescapeCommas_no_backslash by now apply no_backslash_nl_to_space.
  now destruct (isCompleted t).
Qed.

Lemma fromCsv_toCsv_line_breaks_witness :
  fromCsv (toCsv (mkTask 5 (lit "a,b" ++ [LF] ++ lit "c") [CR; LF] true))
  = Some (mkTask 5 (lit "a,b c") (lit "  ") true).
Proof.
  rewrite (fromCsv_toCsv_line_breaks
             (mkTask 5 (lit "a,b" ++ [LF] ++ lit "c") [CR; LF] true));
    reflexivity.
Defined.

(** ** Going back to what was saved *)

Lemma toggle_edit_keep_path_toggle id m :
  savePath (snd (toggleComplete id m)) = savePath m.
Proof. unfold toggleComplete. now destruct (update_first id _ (tasks m)). Qed.

Lemma toggle_edit_keep_path_edit id nt nn m :
  savePath (snd (editTask id nt nn m)) = savePath m.
Proof. unfold editTask. now destruct (update_first id _ (tasks m)). Qed.

Lemma step_keeps_path o s : savePath (fst (snd (step o s))) = savePath (fst s).
Proof.
  destruct s as [m fs]. rewrite step_state. destruct o; cbn [fst snd].
  - now rewrite addTask_eq.
  - unfold removeById. now destruct (remove_first id (tasks m)).
  - apply toggle_edit_keep_path_toggle.
  - apply toggle_edit_keep_path_edit.
  - reflexivity.
  - unfold load. destruct (contents fs (savePath m)); [|reflexivity].
    now destruct (load_loop _ _ _).
  - reflexivity.
Qed.

Lemma step_no_save_fs o s : is_save o = false -> snd (snd (step o s)) = snd s.
Proof.
  destruct s as [m fs]. rewrite step_state.
  destruct o; cbn [fst snd]; try reflexivity. discriminate.
Qed.

Lemma run_no_save ops : forall s,
  no_save ops ->
  snd (snd (run ops s)) = snd s
  /\ savePath (fst (snd (run ops s))) = savePath (fst s).
Proof.
  induction ops as [|o rest IH]; intros s H; [split; reflexivity|].
  inversion H as [|? ? Ho Hrest]; subst. cbn [run].
  pose proof (step_no_save_fs o s Ho) as Hfs.
  pose proof (step_keeps_path o s) as Hp.
  destruct (step o s) as [r s1]. cbn [snd] in *.
  destruct (IH s1 Hrest) as [H1 H2].
  destruct (run rest s1) as [rs s2]. cbn [snd] in *.
  split; congruence.
Qed.

(** X21.  [load] brings back what was saved: after a [save] that could
    write, of tasks that the file format keeps, and any sequence of adds,
    removes, toggles, edits, clears and loads, a [load] gives exactly the
    tasks the store held when it was saved. *)
Theorem load_reverts_to_saved (fs : FileSystem) (m : TaskManager)
    (ops : list Op) :
  writable fs (savePath m) = true ->
  Forall (fun t => task_ok t = true) (tasks m) ->
  no_save ops ->
  let s := snd (run ops (m, snd (save fs m))) in
  load (snd s) (fst s)
  = (true, mkManager (tasks m) (nextId (snd (load (snd (save fs m)) m)))
                     (savePath m)).
Proof.
  intros Hw Hok Hns s. subst s.
  destruct (save_writable fs m Hw) as [_ Hc].
  destruct (run_no_save ops (m, snd (save fs m)) Hns) as [Hfs Hp].
  cbn [fst snd] in Hfs, Hp. rewrite Hfs.
  rewrite <- Hp in Hc. rewrite (load_opened _ _ _ Hc). rewrite Hp in Hc.
  rewrite (load_opened _ _ _ Hc). cbn [snd nextId].
  now rewrite getlines_save_text, (loaded_saved _ Hok), Hp.
Qed.

Lemma load_reverts_to_saved_witness :
  load (snd (snd (run [OpRemove 1; OpAdd (lit "x\y") []; OpClear]
                    (comma_store, snd (save no_files comma_store)))))
       (fst (snd (run [OpRemove 1; OpAdd (lit "x\y") []; OpClear]
                    (comma_store, snd (save no_files comma_store)))))
  = (true, mkManager (tasks comma_store) 3 (lit "tasks.csv")).
Proof.
  apply (load_reverts_to_saved no_files comma_store
           [OpRemove 1; OpAdd (lit "x\y") []; OpClear]).
  - reflexivity.
  - repeat constructor.
  - repeat constructor.
Defined.

(** ** Titles stay non-empty *)

Lemma update_first_Forall (P : Task -> Prop) id f ts :
  (forall t, P t -> P (f t)) ->
  Forall P ts -> Forall P (snd (update_first id f ts)).
Proof.
  intros Hf. induction 1 as [|t r Ht Hr IH]; cbn [update_first].
  - constructor.
  - destruct (getId t =? id); cbn [snd].
    + constructor; auto.
    + destruct (update_first id f r). cbn [snd] in *. constructor; auto.
Qed.

Lemma remove_first_Forall (P : Task -> Prop) id ts :
  Forall P ts -> Forall P (snd (remove_first id ts)).
Proof.
  intros H. apply Forall_forall. intros t Ht.
  rewrite Forall_forall in H. apply H. eapply remove_first_incl, Ht.
Qed.

(** X22.  No operation on an existing task empties a title: if every
    task has a non-empty title, this is still so after [editTask] with any
    arguments (an empty new title keeps the old one), after
    [toggleComplete] and after [removeById]. *)
Theorem titles_stay_nonempty (m : TaskManager) (id : Z) (nt nn : str) :
  titles_nonempty (tasks m) ->
  titles_nonempty (tasks (snd (editTask id nt nn m)))
  /\ titles_nonempty (tasks (snd (toggleComplete id m)))
  /\ titles_nonempty (tasks (snd (removeById id m))).
Proof.
  unfold titles_nonempty. intros H. split; [|split].
  - unfold editTask.
    assert (Hf : forall t, getTitle t <> [] ->
                           getTitle (edit_fields nt nn t) <> []).
    { intros t Ht. rewrite edit_fields_eq. cbn [getTitle].
      destruct nt; [exact Ht|discriminate]. }
    pose proof (update_first_Forall (fun t => getTitle t <> []) id
                  (edit_fields nt nn) (tasks m) Hf H) as H'.
    now destruct (update_first id _ (tasks m)).
  - unfold toggleComplete.
    pose proof (update_first_Forall (fun t => getTitle t <> []) id
                  (fun t => setCompleted t (negb (isCompleted t))) (tasks m)
                  (fun t Ht => Ht) H) as H'.
    now destruct (update_first id _ (tasks m)).
  - unfold removeById.
    pose proof (remove_first_Forall (fun t => getTitle t <> []) id
                  (tasks m) H) as H'.
    now destruct (remove_first id (tasks m)).
Qed.

Lemma titles_stay_nonempty_witness :
  titles_nonempty (tasks (snd (editTask 1 [] (lit "n") sample_store))).
Proof.
  apply (titles_stay_nonempty sample_store 1 [] (lit "n")).
  repeat constructor; discriminate.
Defined.

(** [load] does not keep this: a file line with an empty third field
    gives a task without a title. *)
Example load_empty_title :
  accept (lit "1,0,,x") = [mkTask 1 [] (lit "x") false].
Proof. reflexivity. Qed.

(** ** Editing twice *)

Lemma edited_idem new old : edited new (edited new old) = edited new old.
Proof. now destruct new. Qed.

(** X23.  [editTask] with the same arguments a second time changes
    nothing more: it returns the same flag and the same store as the first
    call. *)
Theorem editTask_idempotent (m : TaskManager) (id : Z) (nt nn : str) :
  editTask id nt nn (snd (editTask id nt nn m)) = editTask id nt nn m.
Proof.
  destruct (in_dec Z.eq_dec id (ids (tasks m))) as [Hin|Hn].
  - destruct (first_with_id id (tasks m) Hin) as (l1 & t & l2 & E & Ht & Hl).
    unfold editTask. rewrite E, (update_first_split _ _ _ _ _ Hl Ht).
    cbn [snd tasks nextId savePath].
    rewrite (update_first_split id _ l1 _ l2 Hl)
      by (now rewrite edit_fields_id).
    rewrite !edit_fields_eq. cbn [getId getTitle getNotes isCompleted].
    now rewrite !edited_idem.
  - unfold editTask. rewrite (update_first_absent _ _ _ Hn).
    cbn [snd tasks nextId savePath]. now rewrite (update_first_absent _ _ _ Hn).
Qed.

(** ** Fresh ids, whatever the file holds *)

Lemma step_preserves_counter o s :
  counter_invariant s -> no_overflow o s -> counter_invariant (snd (step o s)).
Proof.
  destruct s as [m fs]. unfold counter_invariant. cbn [fst snd].
  intros (Hlt & Hr) Hno. rewrite step_state.
  destruct o; cbn [no_overflow fst snd] in *.
  - rewrite addTask_eq. cbn [snd tasks nextId].
    rewrite wrap_int_small by (unfold INT_MIN, INT_MAX in *; lia).
    split; [|lia]. intros i Hi. unfold ids in Hi. rewrite map_app in Hi.
    apply in_app_or in Hi. destruct Hi as [Hi|[<-|[]]].
    + specialize (Hlt _ Hi). lia.
    + cbn [getId]. lia.
  - unfold removeById.
    pose proof (remove_first_incl id (tasks m)) as Hin.
    destruct (remove_first id (tasks m)) as [b ts'].
    cbn [fst snd tasks nextId] in *. split; [|lia].
    intros i Hi. apply Hlt. unfold ids in *. rewrite in_map_iff in *.
    destruct Hi as (t & <- & Ht). exists t. auto.
  - unfold toggleComplete.
    destruct (update_first id _ (tasks m)) as [b ts'] eqn:E.
    apply update_first_same_ids in E; [|reflexivity].
    cbn [snd tasks nextId]. rewrite E. split; [exact Hlt|lia].
  - unfold editTask.
    destruct (update_first id _ (tasks m)) as [b ts'] eqn:E.
    apply update_first_same_ids in E; [|apply edit_fields_id].
    cbn [snd tasks nextId]. rewrite E. split; [exact Hlt|lia].
  - cbn [clearAll snd tasks nextId ids map]. split; [intros i []|lia].
  - destruct (contents fs (savePath m)) as [text|] eqn:E.
    + rewrite (load_opened _ _ _ E). cbn [snd tasks nextId].
      specialize (Hno _ eq_refl). set (l := loaded (getlines text)) in *.
      pose proof (fold_bump_ge l 0) as Hge.
      assert (Hmax : fold_left bump l 0 < INT_MAX).
      { destruct (fold_bump_attained l 0) as [E0|Hin].
        - rewrite E0. reflexivity.
        - rewrite Forall_forall in Hno. now apply Hno. }
      rewrite wrap_int_small by (unfold INT_MIN, INT_MAX in *; lia).
      split; [|lia].
      intros i Hi. pose proof (fold_bump_upper l 0 i Hi). lia.
    + unfold load. rewrite E. cbn [snd]. split; [exact Hlt|lia].
  - split; [exact Hlt|lia].
Qed.

(** X24.  At every state reached from a fresh store by adds, removes,
    toggles, edits, clears, loads and saves whose [int] additions do not
    overflow, whatever the file held at the start (duplicate ids
    included), every id in the store is below [nextId], [nextId] is at
    least 1, and the id [addTask] returns next is not the id of any task in
    the store. *)
Theorem add_returns_fresh_id (p : str) (fs0 : FileSystem) (s : System)
    (title notes : str) :
  reachable (newManager p, fs0) s ->
  (forall i, In i (ids (tasks (fst s))) -> i < nextId (fst s))
  /\ 1 <= nextId (fst s) <= INT_MAX
  /\ ~ In (fst (addTask title notes (fst s))) (ids (tasks (fst s))).
Proof.
  intros Hreach.
  assert (Hinv : counter_invariant s).
  { induction Hreach as [|s o _ IH Hno].
    - unfold counter_invariant. cbn [fst newManager tasks nextId ids map].
      split; [intros i []|]. split; [lia|now vm_compute].
    - now apply step_preserves_counter. }
  destruct Hinv as [Hlt Hr]. split; [exact Hlt|]. split; [exact Hr|].
  rewrite addTask_eq. cbn [fst]. intros Hin. specialize (Hlt _ Hin). lia.
Qed.

Lemma add_returns_fresh_id_witness :
  let s := snd (run [OpLoad; OpAdd (lit "x") []]
                  (newManager (lit "tasks.csv"),
                   one_file (lit "tasks.csv")
                     (file_of [lit "1,0,a,b"; lit "1,1,c,d"]))) in
  ~ In (fst (addTask (lit "t") [] (fst s))) (ids (tasks (fst s))).
Proof.
  cbv zeta.
  apply (add_returns_fresh_id (lit "tasks.csv")
           (one_file (lit "tasks.csv")
              (file_of [lit "1,0,a,b"; lit "1,1,c,d"]))).
  apply reachable_run; [constructor|].
  split; [|split; [reflexivity|exact I]].
  intros text E. vm_compute in E. injection E as <-.
  apply Forall_forall. intros i Hi. vm_compute in Hi.
  destruct Hi as [<-|[<-|[]]]; reflexivity.
Defined.
